(** * VairamAI: the conversation-to-request-to-state core

    A shallow embedding of the orchestration logic of the chat client:
    - [src/services/geminiService.ts]: [cleanBase64] and [sendMessageToGemini]
      (request builder and tool-call resolver), [generateSpeech];
    - [src/App.tsx]: [createNewChat], [handleRenameChat], [handleDeleteChat],
      [handleSendMessage], [handleEditMessage], [handleError];
    - [src/components/ChatWindow.tsx]: [handleSend], [handleFileSelect],
      [removeAttachment], [getSupportedMimeType], [formatDuration];
    - [src/components/MessageBubble.tsx]: [handleSave];
    - [src/components/Sidebar.tsx]: the rename and delete handlers.

    JavaScript strings are modelled as [string] (code units of 8 bits),
    [Date.now()] as successive readings of a clock [now], the remote service
    as an oracle that may answer or reject each call. React state is a record;
    a handler runs against the values captured by its closure (the render's
    snapshot) and updates the live state. *)

From Stdlib Require Import List String Ascii Bool ZArith Lia DecimalString.
Import ListNotations.
Open Scope string_scope.

Set Implicit Arguments.

(** ** Data model (type declarations of the repository) *)

Record User := mkUser {
  user_id : string;
  user_name : string;
  user_email : string;
  user_avatarUrl : string
}.

Inductive AttachmentType := image | file | audio.

Record Attachment := mkAttachment {
  att_type : AttachmentType;
  att_content : string;
  att_mimeType : string;
  att_name : option string
}.

Inductive Role := user | model.

Record Message := mkMessage {
  msg_id : string;
  msg_role : Role;
  msg_content : string;
  msg_attachments : option (list Attachment);
  msg_timestamp : Z
}.

Record ChatSession := mkChatSession {
  cs_id : string;
  cs_title : string;
  cs_messages : list Message;
  cs_createdAt : Z
}.

Inductive LoadingState := IDLE | THINKING | STREAMING | ERROR.

Definition LoadingState_eqb (a b : LoadingState) : bool :=
  match a, b with
  | IDLE, IDLE | THINKING, THINKING | STREAMING, STREAMING | ERROR, ERROR => true
  | _, _ => false
  end.

(** ** JavaScript helpers *)

Module JS.

(** A string is truthy when it is not empty. *)
Definition truthy (s : string) : bool := negb (s =? "").

(** [x || d] on an optional string: [undefined] and [""] both give [d]. *)
Definition orElse (x : option string) (d : string) : string :=
  match x with
  | Some s => if truthy s then s else d
  | None => d
  end.

(** [a || []] on an optional array. *)
Definition orEmpty {A} (x : option (list A)) : list A :=
  match x with Some l => l | None => [] end.

(** [s.slice(0, n)]. *)
Definition slice0 (n : nat) (s : string) : string := substring 0 n s.

(** Template interpolation of an integer. *)
Definition showZ (z : Z) : string := NilZero.string_of_int (Z.to_int z).

(** [id === current] where [current] may be [null]. *)
Definition eqId (sid : string) (current : option string) : bool :=
  match current with
  | Some c => sid =? c
  | None => false
  end.

(** [arr.findIndex(p)], [None] standing for [-1]. *)
Fixpoint findIndex {A} (p : A -> bool) (l : list A) : option nat :=
  match l with
  | [] => None
  | x :: l' => if p x then Some 0 else option_map S (findIndex p l')
  end.

Definition isWhiteSpace (c : ascii) : bool :=
  match nat_of_ascii c with
  | 9 | 10 | 11 | 12 | 13 | 32 | 160 => true
  | _ => false
  end.

Fixpoint trimStart (s : string) : string :=
  match s with
  | String c s' => if isWhiteSpace c then trimStart s' else s
  | EmptyString => EmptyString
  end.

Fixpoint trimEnd (s : string) : string :=
  match s with
  | String c s' =>
      match trimEnd s' with
      | EmptyString => if isWhiteSpace c then EmptyString else String c EmptyString
      | t => String c t
      end
  | EmptyString => EmptyString
  end.

(** [s.trim()]. *)
Definition trim (s : string) : string := trimEnd (trimStart s).

Definition isLineTerminator (c : ascii) : bool :=
  match nat_of_ascii c with
  | 10 | 13 => true
  | _ => false
  end.

Fixpoint noLineTerminator (s : string) : bool :=
  match s with
  | String c s' => negb (isLineTerminator c) && noLineTerminator s'
  | EmptyString => true
  end.

Fixpoint stripPrefix (p s : string) : option string :=
  match p, s with
  | EmptyString, _ => Some s
  | String a p', String b s' => if Ascii.eqb a b then stripPrefix p' s' else None
  | String _ _, EmptyString => None
  end.

(** [s.includes(c)] for one character. *)
Fixpoint hasChar (c : ascii) (s : string) : bool :=
  match s with
  | String d s' => Ascii.eqb c d || hasChar c s'
  | EmptyString => false
  end.

(** [s.startsWith(p)]. *)
Definition startsWith (p s : string) : bool :=
  match stripPrefix p s with
  | Some _ => true
  | None => false
  end.

Fixpoint repeatChar (c : ascii) (n : nat) : string :=
  match n with
  | O => EmptyString
  | S n' => String c (repeatChar c n')
  end.

(** [s.padStart(targetLength, c)] for a pad string of one character. *)
Definition padStart (targetLength : nat) (c : ascii) (s : string) : string :=
  repeatChar c (targetLength - String.length s) ++ s.

(** [arr.filter((x, i) => p x i)]: the callback also gets the index. *)
Fixpoint filterFrom {A} (p : A -> nat -> bool) (i : nat) (l : list A) : list A :=
  match l with
  | [] => []
  | x :: l' =>
      if p x i then x :: filterFrom p (S i) l' else filterFrom p (S i) l'
  end.

Definition filteri {A} (p : A -> nat -> bool) (l : list A) : list A :=
  filterFrom p 0 l.

End JS.

(** ** A state monad with exceptions *)

Inductive Exn :=
| MessageCannotBeEmpty      (* Error("Message cannot be empty") *)
| RemoteRejected            (* a rejected promise of the SDK *)
| TypeError                 (* property access on undefined *)
| FailedToGetResponse.      (* Error("Failed to get response from VAIRAM AI.") *)

Inductive Result (A : Type) :=
| Ok (a : A)
| Throw (e : Exn).
Arguments Ok {A} a.
Arguments Throw {A} e.

Definition St (S A : Type) : Type := S -> Result A * S.

Definition ret {S A} (a : A) : St S A := fun s => (Ok a, s).

Definition bind {S A B} (m : St S A) (k : A -> St S B) : St S B :=
  fun s =>
    match m s with
    | (Ok a, s') => k a s'
    | (Throw e, s') => (Throw e, s')
    end.

Definition throw {S A} (e : Exn) : St S A := fun s => (Throw e, s).

(** [try { m } catch (e) { h e }]: the state reached at the throw is kept. *)
Definition try_catch {S A} (m : St S A) (h : Exn -> St S A) : St S A :=
  fun s =>
    match m s with
    | (Ok a, s') => (Ok a, s')
    | (Throw e, s') => h e s'
    end.

Definition get {S} : St S S := fun s => (Ok s, s).
Definition modify {S} (f : S -> S) : St S unit := fun s => (Ok tt, f s).

Declare Scope st_scope.
Delimit Scope st_scope with st.
Notation "x <- m ;; k" := (bind m (fun x => k))
  (at level 100, m at next level, right associativity) : st_scope.
Notation "m ;; k" := (bind m (fun _ => k))
  (at level 100, right associativity) : st_scope.
Open Scope st_scope.

(** ** The remote service ([@google/genai]), as the code uses it *)

(** A content part of a request turn. *)
Inductive Part :=
| InlineData (mimeType data : string)
| TextPart (text : string)
| FunctionResponse (name : string) (id : option string) (result : string).

Record Content := mkContent {
  role : Role;
  parts : list Part
}.

(** The object made by [ai.chats.create]: the history it was created with
    and the messages already sent on it. *)
Record Chat := mkChat {
  chat_model : string;
  chat_history : list Content;
  chat_sent : list (list Part)
}.

Record FunctionCall := mkFunctionCall {
  fc_name : option string;
  fc_id : option string;
  fc_args : option (list (string * string))
}.

Record GenerateContentResponse := mkResponse {
  resp_text : option string;
  resp_functionCalls : option (list FunctionCall)
}.

Record Image := mkImage { imageBytes : option string }.
Record GeneratedImage := mkGeneratedImage { gi_image : option Image }.
Record GenerateImagesResponse := mkImagesResponse {
  generatedImages : option (list GeneratedImage)
}.

(** The requests that reach the network. *)
Inductive RemoteCall :=
| SendMessage (chat : Chat) (message : list Part)
| GenerateImages (imgModel : string) (prompt : option string)
                 (numberOfImages : nat) (outputMimeType : string).

(** The remote service: each call either answers or is rejected ([None]);
    the answer may depend on everything requested before. *)
Record Remote := mkRemote {
  remote_sendMessage :
    list RemoteCall -> Chat -> list Part -> option GenerateContentResponse;
  remote_generateImages :
    list RemoteCall -> option string -> option GenerateImagesResponse
}.

(** ** [src/services/geminiService.ts] *)

Module GeminiService.

(** [dataUrl.match(/^data:(.+);base64,(.+)$/)], second group. The first
    group is greedy, so the payload starts after the last [";base64,"]
    that still leaves one character on each side. *)
Fixpoint lastPayload (s : string) : option string :=
  match s with
  | EmptyString => None
  | String _ s' =>
      match lastPayload s' with
      | Some p => Some p
      | None =>
          match JS.stripPrefix ";base64," s with
          | Some p => if JS.truthy p then Some p else None
          | None => None
          end
      end
  end.

Definition cleanBase64 (dataUrl : string) : string :=
  match JS.stripPrefix "data:" dataUrl with
  | Some (String c rest) =>
      if JS.noLineTerminator (String c rest) then
        match lastPayload rest with
        | Some payload => payload
        | None => dataUrl
        end
      else dataUrl
  | _ => dataUrl
  end.

Definition inlinePart (att : Attachment) : Part :=
  InlineData (att_mimeType att) (cleanBase64 (att_content att)).

Definition textParts (s : string) : list Part :=
  if JS.truthy s then [TextPart s] else [].

(** The callback of [history.map]. *)
Definition historyTurn (msg : Message) : Content :=
  let attParts :=
    match msg_attachments msg with
    | Some atts => if (0 <? List.length atts)%nat then map inlinePart atts else []
    | None => []
    end in
  {| role := msg_role msg; parts := attParts ++ textParts (msg_content msg) |}.

Definition chatHistory (history : list Message) : list Content :=
  map historyTurn history.

Definition currentParts (newMessage : string) (newAttachments : list Attachment)
  : list Part :=
  map inlinePart newAttachments ++ textParts newMessage.

(** The turn outcome. *)
Record Outcome := mkOutcome {
  text : string;
  attachments : list Attachment
}.

(** The local variables of [sendMessageToGemini] that are assigned inside
    its inner [try], and the log of the calls that reached the network. *)
Record Frame := mkFrame {
  responseText : string;
  generatedAttachments : list Attachment;
  calls : list RemoteCall
}.

Definition withText (s : string) (f : Frame) : Frame :=
  {| responseText := s;
     generatedAttachments := generatedAttachments f;
     calls := calls f |}.

Definition withLocals (s : string) (atts : list Attachment) (f : Frame) : Frame :=
  {| responseText := s; generatedAttachments := atts; calls := calls f |}.

Definition withAttachment (a : Attachment) (f : Frame) : Frame :=
  {| responseText := responseText f;
     generatedAttachments := generatedAttachments f ++ [a];
     calls := calls f |}.

Definition withCall (c : RemoteCall) (f : Frame) : Frame :=
  {| responseText := responseText f;
     generatedAttachments := generatedAttachments f;
     calls := calls f ++ [c] |}.

(** [responseText = s] *)
Definition setResponseText (s : string) : St Frame unit := modify (withText s).

(** [let responseText = s; let generatedAttachments = [];] *)
Definition initLocals (s : string) : St Frame unit := modify (withLocals s []).

(** [generatedAttachments.push(a)] *)
Definition pushAttachment (a : Attachment) : St Frame unit :=
  modify (withAttachment a).

Definition logCall (c : RemoteCall) : St Frame unit := modify (withCall c).

Definition generatedImage (bytes : option string) : Attachment :=
  {| att_type := image;
     att_content := "data:image/jpeg;base64," ++ match bytes with
                                                 | Some b => b
                                                 | None => "undefined"
                                                 end;
     att_mimeType := "image/jpeg";
     att_name := Some "generated_image.jpg" |}.

Definition noImageReturned : string :=
  "I tried to generate an image, but no image was returned.".
Definition imageError : string :=
  "I apologize, but I encountered an error while attempting to generate the image.".
Definition imageConfirmation : string :=
  "I have generated the image for you.".
Definition noTextResponse : string :=
  "I processed your request but have no text response.".

(** [ai.chats.create({ model, history, config })]: a local object, nothing
    is sent yet. The system instruction and the declared tool are fixed. *)
Definition chats_create (model : string) (history : list Content) : Chat :=
  {| chat_model := model; chat_history := history; chat_sent := [] |}.

(** The chat object once [message] was sent on it. *)
Definition afterMessage (chat : Chat) (message : list Part) : Chat :=
  {| chat_model := chat_model chat;
     chat_history := chat_history chat;
     chat_sent := chat_sent chat ++ [message] |}.

(** Lines 63-99: the chat of a turn, created on the built history. *)
Definition chatFor (history : list Message) : Chat :=
  let model := "gemini-2.5-flash" in
  chats_create model (chatHistory history).

(** The request of [ai.models.generateImages]: one image, as JPEG. *)
Definition imageRequest (prompt : option string) : RemoteCall :=
  GenerateImages "imagen-4.0-generate-001" prompt 1 "image/jpeg".

(** [!responseText && generatedAttachments.length === 0] *)
Definition isBlank (f : Frame) : bool :=
  negb (JS.truthy (responseText f))
  && (List.length (generatedAttachments f) =? 0)%nat.

Section WithRemote.

Variable remote : Remote.

(** [await chat.sendMessage({ message })]: the chat remembers the message. *)
Definition chat_sendMessage (chat : Chat) (message : list Part)
  : St Frame (GenerateContentResponse * Chat) :=
  f <- get ;;
  logCall (SendMessage chat message) ;;
  match remote_sendMessage remote (calls f) chat message with
  | Some r => ret (r, afterMessage chat message)
  | None => throw RemoteRejected
  end.

(** [await ai.models.generateImages({...})]. *)
Definition generateImages (prompt : option string)
  : St Frame GenerateImagesResponse :=
  f <- get ;;
  logCall (imageRequest prompt) ;;
  match remote_generateImages remote (calls f) prompt with
  | Some r => ret r
  | None => throw RemoteRejected
  end.

(** The inner [try] block: image generation and the tool-result turn. *)
Definition generateAndReport (chat : Chat) (call : FunctionCall)
                             (prompt : option string) : St Frame unit :=
  imageResponse <- generateImages prompt ;;
  match generatedImages imageResponse with
  | Some (first :: _) =>
      bytes <- match gi_image first with
               | Some img => ret (imageBytes img)
               | None => throw TypeError
               end ;;
      pushAttachment (generatedImage bytes) ;;
      funcResponse <- chat_sendMessage chat
        [FunctionResponse "generate_image" (fc_id call)
                          "Image generated successfully."] ;;
      setResponseText (JS.orElse (resp_text (fst funcResponse)) imageConfirmation)
  | _ => setResponseText noImageReturned
  end.

(** The block "Handle Function Calls". *)
Definition handleFunctionCalls (chat : Chat)
                               (functionCalls : option (list FunctionCall))
  : St Frame unit :=
  match functionCalls with
  | Some (call :: _) =>
      match fc_name call with
      | Some name =>
          if name =? "generate_image" then
            prompt <- match fc_args call with
                      | Some args =>
                          ret (option_map snd
                                 (find (fun kv => fst kv =? "prompt") args))
                      | None => throw TypeError
                      end ;;
            try_catch (generateAndReport chat call prompt)
                      (fun _ => setResponseText imageError)
          else ret tt
      | None => ret tt
      end
  | _ => ret tt
  end.

(** The block "Fallback if no text and no attachments", and [return]. *)
Definition fallbackAndReturn : St Frame Outcome :=
  f <- get ;;
  (if isBlank f then setResponseText noTextResponse else ret tt) ;;
  f <- get ;;
  ret {| text := responseText f; attachments := generatedAttachments f |}.

(** Lines 63-177: the outer [try] up to the fallback block. What the
    resolution yields is left in [responseText] and [generatedAttachments]. *)
Definition sendMessageToGemini_resolve (history : list Message)
                                       (newMessage : string)
                                       (newAttachments : list Attachment)
  : St Frame unit :=
  let chat := chatFor history in
  let message := currentParts newMessage newAttachments in
  if (List.length message =? 0)%nat then throw MessageCannotBeEmpty
  else
    result <- chat_sendMessage chat message ;;
    initLocals (JS.orElse (resp_text (fst result)) "") ;;
    handleFunctionCalls (snd result) (resp_functionCalls (fst result)).

(** The body of the outer [try]. *)
Definition sendMessageToGemini_try (history : list Message)
                                   (newMessage : string)
                                   (newAttachments : list Attachment)
  : St Frame Outcome :=
  let chat := chatFor history in
  let message := currentParts newMessage newAttachments in
  if (List.length message =? 0)%nat then throw MessageCannotBeEmpty
  else
    result <- chat_sendMessage chat message ;;
    initLocals (JS.orElse (resp_text (fst result)) "") ;;
    handleFunctionCalls (snd result) (resp_functionCalls (fst result)) ;;
    fallbackAndReturn.

Definition sendMessageToGemini (history : list Message)
                               (newMessage : string)
                               (newAttachments : list Attachment)
  : St Frame Outcome :=
  try_catch (sendMessageToGemini_try history newMessage newAttachments)
            (fun _ => throw FailedToGetResponse).

End WithRemote.

(** The frame on entry: [responseText] and [generatedAttachments] are not
    yet assigned, [log] holds the calls made so far. *)
Definition enter (log : list RemoteCall) : Frame :=
  {| responseText := ""; generatedAttachments := []; calls := log |}.

(** The message of the tool-result turn (lines 157-165). *)
Definition toolResult (call : FunctionCall) : list Part :=
  [FunctionResponse "generate_image" (fc_id call) "Image generated successfully."].

(** The answer of the speech model, as far as [generateSpeech] reads it:
    [response.candidates?.[0]?.content?.parts?.[0]?.inlineData?.data]. *)
Record Blob := mkBlob { blob_data : option string }.
Record SpeechPart := mkSpeechPart { sp_inlineData : option Blob }.
Record SpeechContent := mkSpeechContent { sc_parts : option (list SpeechPart) }.
Record Candidate := mkCandidate { cand_content : option SpeechContent }.
Record SpeechResponse := mkSpeechResponse {
  candidates : option (list Candidate)
}.

(** The two ways [generateSpeech] fails: the call is rejected, or
    Error("No audio data returned"); its [catch] rethrows what it caught. *)
Inductive SpeechFault := SpeechRejected | NoAudioData.

Definition firstAudio (response : SpeechResponse) : option string :=
  match candidates response with
  | Some (candidate :: _) =>
      match cand_content candidate with
      | Some content =>
          match sc_parts content with
          | Some (part :: _) =>
              match sp_inlineData part with
              | Some blob => blob_data blob
              | None => None
              end
          | _ => None
          end
      | None => None
      end
  | _ => None
  end.

(** [generateSpeech]; [generateContent] is the speech model, asked with the
    fixed model name, voice and modality, and rejected when [None]. *)
Definition generateSpeech (generateContent : string -> option SpeechResponse)
                          (text : string) : SpeechFault + string :=
  match generateContent text with
  | None => inl SpeechRejected
  | Some response =>
      match firstAudio response with
      | Some base64Audio =>
          if JS.truthy base64Audio
          then inr ("data:audio/wav;base64," ++ base64Audio)
          else inl NoAudioData
      | None => inl NoAudioData
      end
  end.

End GeminiService.

(** ** [src/App.tsx] *)

(** The React state of [App] that the handlers read and write. *)
Record AppState := mkAppState {
  app_user : option User;
  sessions : list ChatSession;
  currentSessionId : option string;
  loadingState : LoadingState
}.

(** The live state, with what an observer of a run can see: every value
    given to [setLoadingState], every request that reached the network, and
    the number of clock readings so far. *)
Record World := mkWorld {
  live : AppState;
  loadingTrace : list LoadingState;
  requests : list RemoteCall;
  ticks : nat
}.

Module App.

Import GeminiService.

Definition apology : string :=
  "I apologize, but I encountered an error while processing your request. Please try again.".

Definition withSessions (f : list ChatSession -> list ChatSession) (w : World)
  : World :=
  {| live := {| app_user := app_user (live w);
                sessions := f (sessions (live w));
                currentSessionId := currentSessionId (live w);
                loadingState := loadingState (live w) |};
     loadingTrace := loadingTrace w;
     requests := requests w;
     ticks := ticks w |}.

Definition withCurrent (c : option string) (w : World) : World :=
  {| live := {| app_user := app_user (live w);
                sessions := sessions (live w);
                currentSessionId := c;
                loadingState := loadingState (live w) |};
     loadingTrace := loadingTrace w;
     requests := requests w;
     ticks := ticks w |}.

Definition withLoading (l : LoadingState) (w : World) : World :=
  {| live := {| app_user := app_user (live w);
                sessions := sessions (live w);
                currentSessionId := currentSessionId (live w);
                loadingState := l |};
     loadingTrace := loadingTrace w ++ [l];
     requests := requests w;
     ticks := ticks w |}.

Definition withRequests (log : list RemoteCall) (w : World) : World :=
  {| live := live w;
     loadingTrace := loadingTrace w;
     requests := log;
     ticks := ticks w |}.

Definition tick (w : World) : World :=
  {| live := live w;
     loadingTrace := loadingTrace w;
     requests := requests w;
     ticks := S (ticks w) |}.

(** The functional form [setSessions(prev => f(prev))]; a plain value [v]
    is [setSessions (fun _ => v)]. *)
Definition setSessions (f : list ChatSession -> list ChatSession) : St World unit :=
  modify (withSessions f).

Definition setCurrentSessionId (c : option string) : St World unit :=
  modify (withCurrent c).

Definition setLoadingState (l : LoadingState) : St World unit :=
  modify (withLoading l).

(** [await] of a call into the service: it runs in a frame of its own and
    shares the network with the caller. *)
Definition await {A} (m : St Frame A) : St World A :=
  fun w =>
    let (r, f) := m (enter (requests w)) in
    (r, withRequests (calls f) w).

(** A session id that passes [if (!id)]: neither [null] nor empty. *)
Definition selected (c : option string) : option string :=
  match c with
  | Some s => if JS.truthy s then Some s else None
  | None => None
  end.

Definition newTitle (session : ChatSession) (content : string)
                    (attachments : list Attachment) : string :=
  let isFirstMessage := (List.length (cs_messages session) =? 0)%nat in
  if isFirstMessage then
    if JS.truthy content
    then JS.slice0 30 content
         ++ (if (30 <? String.length content)%nat then "..." else "")
    else if (0 <? List.length attachments)%nat
         then "Image Analysis" else "New Conversation"
  else cs_title session.

(** The message objects the handlers build; [t] and [stamp] are the two
    clock readings, for the id and for the timestamp. *)
Definition userMessage (content : string) (attachments : list Attachment)
                       (t stamp : Z) : Message :=
  {| msg_id := "msg_" ++ JS.showZ t ++ "_u";
     msg_role := user;
     msg_content := content;
     msg_attachments := Some attachments;
     msg_timestamp := stamp |}.

Definition botMessage (outcome : Outcome) (t stamp : Z) : Message :=
  {| msg_id := "msg_" ++ JS.showZ t ++ "_b";
     msg_role := model;
     msg_content := text outcome;
     msg_attachments := Some (GeminiService.attachments outcome);
     msg_timestamp := stamp |}.

Definition errorMessage (t stamp : Z) : Message :=
  {| msg_id := "msg_" ++ JS.showZ t ++ "_err";
     msg_role := model;
     msg_content := apology;
     msg_attachments := None;
     msg_timestamp := stamp |}.

Definition newSession (t created : Z) : ChatSession :=
  {| cs_id := "chat_" ++ JS.showZ t;
     cs_title := "New Conversation";
     cs_messages := [];
     cs_createdAt := created |}.

(** [{ ...original, content, timestamp, attachments }] *)
Definition updatedUserMessage (original : Message) (newContent : string)
                              (stamp : Z) : Message :=
  {| msg_id := msg_id original;
     msg_role := msg_role original;
     msg_content := newContent;
     msg_attachments := Some (JS.orEmpty (msg_attachments original));
     msg_timestamp := stamp |}.

(** [{ ...session, title, messages }] *)
Definition withMessages (title : string) (ms : list Message)
                        (session : ChatSession) : ChatSession :=
  {| cs_id := cs_id session;
     cs_title := title;
     cs_messages := ms;
     cs_createdAt := cs_createdAt session |}.

(** [prev.map(session => session.id === sid ? {...session, messages:
    [...session.messages, m]} : session)]. *)
Definition appendMessage (sid : option string) (m : Message)
  : list ChatSession -> list ChatSession :=
  map (fun session =>
         if JS.eqId (cs_id session) sid
         then withMessages (cs_title session) (cs_messages session ++ [m]) session
         else session).

(** The callback of the first [setSessions] of [handleSendMessage]: the
    target session gets the new message, and its title when it was empty. *)
Definition addUserMessage (activeSessionId content : string)
                          (attachments : list Attachment) (newMessage : Message)
                          (session : ChatSession) : ChatSession :=
  if cs_id session =? activeSessionId
  then withMessages (newTitle session content attachments)
                    (cs_messages session ++ [newMessage]) session
  else session.

Section WithEnvironment.

Variable now : nat -> Z.
Variable remote : Remote.

(** [Date.now()]. *)
Definition Date_now : St World Z :=
  fun w => (Ok (now (ticks w)), tick w).

Definition createNewChat (app : AppState) : St World unit :=
  match app_user app with
  | None => ret tt
  | Some _ =>
      t <- Date_now ;;
      let newChatId := "chat_" ++ JS.showZ t in
      created <- Date_now ;;
      setSessions (fun prev => newSession t created :: prev) ;;
      setCurrentSessionId (Some newChatId)
  end.

Definition handleRenameChat (id newTitle : string) : St World unit :=
  setSessions
    (map (fun session =>
            if cs_id session =? id
            then withMessages newTitle (cs_messages session) session
            else session)).

Definition handleDeleteChat (app : AppState) (id : string) : St World unit :=
  let remaining := filter (fun s => negb (cs_id s =? id)) (sessions app) in
  setSessions (fun _ => remaining) ;;
  if JS.eqId id (currentSessionId app)
  then setCurrentSessionId
         match remaining with
         | first :: _ => Some (cs_id first)
         | [] => None
         end
  else ret tt.

Definition handleError (app : AppState) : St World unit :=
  setLoadingState ERROR ;;
  t <- Date_now ;;
  stamp <- Date_now ;;
  setSessions (appendMessage (currentSessionId app) (errorMessage t stamp)) ;;
  setLoadingState IDLE.

(** The reply of a turn, shared by the send and the edit flow: the body
    of their [try] after the history is chosen. *)
Definition receiveReply (target : option string) (history : list Message)
                        (content : string) (attachments : list Attachment)
  : St World unit :=
  outcome <- await (sendMessageToGemini remote history content attachments) ;;
  t <- Date_now ;;
  stamp <- Date_now ;;
  setSessions (appendMessage target (botMessage outcome t stamp)) ;;
  setLoadingState IDLE.

(** Lines 94-146: the session is found or made, the user message is
    appended at once, and the loading state becomes [THINKING]. The
    result is the target session and the new message. The local [history]
    that the updater assigns is never read afterwards and is left out. *)
Definition handleSendMessage_begin (app : AppState) (content : string)
                                   (attachments : list Attachment)
  : St World (string * Message) :=
  activeSessionId <-
    match selected (currentSessionId app) with
    | Some sid => ret sid
    | None =>
        t <- Date_now ;;
        let newChatId := "chat_" ++ JS.showZ t in
        created <- Date_now ;;
        setSessions (fun prev => newSession t created :: prev) ;;
        setCurrentSessionId (Some newChatId) ;;
        ret newChatId
    end ;;
  t <- Date_now ;;
  stamp <- Date_now ;;
  let newMessage := userMessage content attachments t stamp in
  setSessions
    (map (fun session =>
            if cs_id session =? activeSessionId
            then withMessages (newTitle session content attachments)
                              (cs_messages session ++ [newMessage]) session
            else session)) ;;
  setLoadingState THINKING ;;
  ret (activeSessionId, newMessage).

(** The history given to the service (lines 153-155): read from the
    [sessions] of the closure, to which the new message is added. *)
Definition contextMessages (app : AppState) (activeSessionId : string)
                           (newMessage : Message) : list Message :=
  let sessionToUpdate :=
    find (fun s => cs_id s =? activeSessionId) (sessions app) in
  let previousMessages :=
    match sessionToUpdate with
    | Some s => cs_messages s
    | None => []
    end in
  previousMessages ++ [newMessage].

Definition handleSendMessage (app : AppState) (content : string)
                             (attachments : list Attachment) : St World unit :=
  begun <- handleSendMessage_begin app content attachments ;;
  let (activeSessionId, newMessage) := begun in
  try_catch
    (receiveReply (Some activeSessionId)
                  (contextMessages app activeSessionId newMessage)
                  content attachments)
    (fun _ => handleError app).

(** Lines 185-214: the edited message is looked up by its id in the
    current session of the closure, the session is cut after it, and the
    loading state becomes [THINKING]. [None] is the early [return]; the
    result is otherwise the history before the message and its
    attachments. *)
Definition handleEditMessage_begin (app : AppState)
                                   (messageId newContent : string)
  : St World (option (list Message * list Attachment)) :=
  match selected (currentSessionId app) with
  | None => ret None
  | Some sid =>
      match find (fun s => cs_id s =? sid) (sessions app) with
      | None => ret None
      | Some currentSession =>
          match JS.findIndex (fun m => msg_id m =? messageId)
                             (cs_messages currentSession) with
          | None => ret None
          | Some msgIndex =>
              match nth_error (cs_messages currentSession) msgIndex with
              | None => throw TypeError
              | Some original =>
                  let originalAttachments :=
                    JS.orEmpty (msg_attachments original) in
                  let historyBefore :=
                    firstn msgIndex (cs_messages currentSession) in
                  stamp <- Date_now ;;
                  let updated :=
                    updatedUserMessage original newContent stamp in
                  setSessions
                    (map (fun session =>
                            if cs_id session =? sid
                            then withMessages (cs_title session)
                                              (historyBefore ++ [updated])
                                              session
                            else session)) ;;
                  setLoadingState THINKING ;;
                  ret (Some (historyBefore, originalAttachments))
              end
          end
      end
  end.

Definition handleEditMessage (app : AppState) (messageId newContent : string)
  : St World unit :=
  begun <- handleEditMessage_begin app messageId newContent ;;
  match begun with
  | None => ret tt
  | Some (historyBefore, originalAttachments) =>
      try_catch
        (receiveReply (currentSessionId app) historyBefore
                      newContent originalAttachments)
        (fun _ => handleError app)
  end.

(** Lines 148-181: the [try]/[catch] of [handleSendMessage]. It runs when
    the awaited call settles, so other handlers may have run since the first
    part; [handleSendMessage] is the first part followed at once by this. *)
Definition handleSendMessage_settle (app : AppState) (activeSessionId : string)
                                    (newMessage : Message) (content : string)
                                    (attachments : list Attachment)
  : St World unit :=
  try_catch
    (receiveReply (Some activeSessionId)
                  (contextMessages app activeSessionId newMessage)
                  content attachments)
    (fun _ => handleError app).

End WithEnvironment.

End App.

(** ** [src/components/ChatWindow.tsx] *)

Module ChatWindow.

Section WithEnvironment.

Variable now : nat -> Z.
Variable remote : Remote.

(** [onSendMessage] is an async function: a fault inside it would reject
    its promise, which [handleSend] does not look at. *)
Definition onSendMessage (app : AppState) (content : string)
                         (attachments : list Attachment) : St World unit :=
  try_catch (App.handleSendMessage now remote app content attachments)
            (fun _ => ret tt).

(** [handleSend], on the [input] and [attachments] of the component and
    the [loadingState] it was rendered with; the result is the new
    [input] and [attachments]. *)
Definition handleSend (app : AppState) (input : string)
                      (attachments : list Attachment)
  : St World (string * list Attachment) :=
  if (negb (JS.truthy (JS.trim input)) && (List.length attachments =? 0)%nat)
     || negb (LoadingState_eqb (loadingState app) IDLE)
  then ret (input, attachments)
  else onSendMessage app input attachments ;;
       ret ("", []).

End WithEnvironment.

(** [removeAttachment]: the updater given to [setAttachments]. *)
Definition removeAttachment (index : nat) (prev : list Attachment)
  : list Attachment :=
  JS.filteri (fun _ i => negb (i =? index)%nat) prev.

Definition recorderTypes : list string :=
  ["audio/webm;codecs=opus"; "audio/webm"; "audio/mp4"; "audio/aac"; "audio/ogg"].

(** [getSupportedMimeType]; [isTypeSupported] is the browser's
    [MediaRecorder.isTypeSupported]. *)
Definition getSupportedMimeType (isTypeSupported : string -> bool) : string :=
  match find isTypeSupported recorderTypes with
  | Some type => type
  | None => "audio/webm"
  end.

(** [formatDuration], on a whole number of seconds. *)
Definition formatDuration (seconds : nat) : string :=
  let mins := (seconds / 60)%nat in
  let secs := (seconds mod 60)%nat in
  JS.showZ (Z.of_nat mins) ++ ":" ++ JS.padStart 2 "0" (JS.showZ (Z.of_nat secs)).

(** A [File] of the file input, as [handleFileSelect] reads it. *)
Record File := mkFile {
  file_name : string;
  file_type : string
}.

(** The attachment pushed for a file that was read as [base64]. *)
Definition fileAttachment (f : File) (base64 : string) : Attachment :=
  let isImage := JS.startsWith "image/" (file_type f) in
  let isAudio := JS.startsWith "audio/" (file_type f) in
  {| att_type := if isImage then image else if isAudio then audio else file;
     att_content := base64;
     att_mimeType := if JS.truthy (file_type f) then file_type f
                     else "application/octet-stream";
     att_name := Some (file_name f) |}.

(** The [for] loop of [handleFileSelect]; [readAsDataURL] is the
    [FileReader], [None] when it fails (the [catch] only logs). *)
Fixpoint readFiles (readAsDataURL : File -> option string) (files : list File)
                   (newAttachments : list Attachment) : list Attachment :=
  match files with
  | [] => newAttachments
  | f :: rest =>
      match readAsDataURL f with
      | Some base64 =>
          readFiles readAsDataURL rest (newAttachments ++ [fileAttachment f base64])
      | None => readFiles readAsDataURL rest newAttachments
      end
  end.

(** [handleFileSelect], as the change it makes to [attachments];
    [files] is [e.target.files], which may be [null]. *)
Definition handleFileSelect (readAsDataURL : File -> option string)
                            (files : option (list File))
                            (prev : list Attachment) : list Attachment :=
  match files with
  | Some fs => prev ++ readFiles readAsDataURL fs []
  | None => prev
  end.

End ChatWindow.

(** ** [src/components/MessageBubble.tsx] *)

Module MessageBubble.

(** [handleSave], on the [message] of the bubble and its [editValue];
    [onEdit] is the optional callback, an async function whose promise is
    not looked at. The result is the new [isEditing]. *)
Definition handleSave (onEdit : option (string -> string -> St World unit))
                      (message : Message) (editValue : string) : St World bool :=
  (if JS.truthy (JS.trim editValue) && negb (editValue =? msg_content message)
   then match onEdit with
        | Some edit => try_catch (edit (msg_id message) editValue) (fun _ => ret tt)
        | None => ret tt
        end
   else ret tt) ;;
  ret false.

End MessageBubble.

(** ** [src/components/Sidebar.tsx] *)

Module Sidebar.

(** The state of the component. *)
Record State := mkState {
  editingSessionId : option string;
  editTitle : string;
  deleteConfirmId : option string
}.

Definition initial : State :=
  {| editingSessionId := None; editTitle := ""; deleteConfirmId := None |}.

Definition startRename (session : ChatSession) (st : State) : State :=
  {| editingSessionId := Some (cs_id session);
     editTitle := cs_title session;
     deleteConfirmId := None |}.

(** [saveRename]: [onRenameChat] is [App.handleRenameChat]. *)
Definition saveRename (sessionId : string) (st : State) : St World State :=
  (if JS.truthy (JS.trim (editTitle st))
   then App.handleRenameChat sessionId (JS.trim (editTitle st))
   else ret tt) ;;
  ret {| editingSessionId := None;
         editTitle := editTitle st;
         deleteConfirmId := deleteConfirmId st |}.

Definition cancelRename (st : State) : State :=
  {| editingSessionId := None;
     editTitle := "";
     deleteConfirmId := deleteConfirmId st |}.

Definition startDelete (sessionId : string) (st : State) : State :=
  {| editingSessionId := None;
     editTitle := editTitle st;
     deleteConfirmId := Some sessionId |}.

(** [confirmDelete]: [onDeleteChat] is [App.handleDeleteChat] of the render
    [app]; the second result tells whether [onClose] was called
    ([window.innerWidth < 768]). *)
Definition confirmDelete (app : AppState) (innerWidth : Z) (sessionId : string)
                         (st : State) : St World (State * bool) :=
  App.handleDeleteChat app sessionId ;;
  ret ({| editingSessionId := editingSessionId st;
          editTitle := editTitle st;
          deleteConfirmId := None |},
       (innerWidth <? 768)%Z).

Definition cancelDelete (st : State) : State :=
  {| editingSessionId := editingSessionId st;
     editTitle := editTitle st;
     deleteConfirmId := None |}.

(** The [onChange] of the rename box: [setEditTitle(e.target.value)]. *)
Definition typeTitle (value : string) (st : State) : State :=
  {| editingSessionId := editingSessionId st;
     editTitle := value;
     deleteConfirmId := deleteConfirmId st |}.

(** The click on a session: [onSelectSession] is [setCurrentSessionId]; the
    result tells whether [onClose] was called. *)
Definition selectSession (innerWidth : Z) (sessionId : string) : St World bool :=
  App.setCurrentSessionId (Some sessionId) ;;
  ret (innerWidth <? 768)%Z.

(** What the user can do in the list of sessions, and the state after it. *)
Inductive Action :=
| StartRename (session : ChatSession)
| TypeTitle (value : string)
| SaveRename (sessionId : string)
| CancelRename
| StartDelete (sessionId : string)
| ConfirmDelete (app : AppState) (innerWidth : Z) (sessionId : string)
| CancelDelete
| SelectSession (innerWidth : Z) (sessionId : string).

Definition act (a : Action) (st : State) : St World State :=
  match a with
  | StartRename session => ret (startRename session st)
  | TypeTitle value => ret (typeTitle value st)
  | SaveRename sessionId => saveRename sessionId st
  | CancelRename => ret (cancelRename st)
  | StartDelete sessionId => ret (startDelete sessionId st)
  | ConfirmDelete app innerWidth sessionId =>
      r <- confirmDelete app innerWidth sessionId st ;; ret (fst r)
  | CancelDelete => ret (cancelDelete st)
  | SelectSession innerWidth sessionId =>
      selectSession innerWidth sessionId ;; ret st
  end.

Fixpoint acts (l : list Action) (st : State) : St World State :=
  match l with
  | [] => ret st
  | a :: l' => st' <- act a st ;; acts l' st'
  end.

End Sidebar.

(** A run starts from the state the handler's closure was made from. *)
Definition start (app : AppState) : World :=
  {| live := app; loadingTrace := []; requests := []; ticks := 0 |}.

(** ** Concrete data for the examples below *)

Module Examples.

(** A clock that advances by one millisecond at each reading. *)
Definition clock (n : nat) : Z := 1700000000000 + Z.of_nat n.

(** A service that rejects every call. *)
Definition rejecting : Remote :=
  {| remote_sendMessage := fun _ _ _ => None;
     remote_generateImages := fun _ _ => None |}.

(** A service that answers every message with the text [t] and no tool call. *)
Definition answering (t : string) : Remote :=
  {| remote_sendMessage :=
       fun _ _ _ => Some {| resp_text := Some t; resp_functionCalls := None |};
     remote_generateImages := fun _ _ => None |}.

(** An answer with no text that asks for the tool [name]. *)
Definition toolReply (name : string) : GenerateContentResponse :=
  {| resp_text := None;
     resp_functionCalls :=
       Some [{| fc_name := Some name;
                fc_id := Some "call_1";
                fc_args := Some [("prompt", "a red kite")] |}] |}.

(** A service that asks for the tool [name]; its image backend answers
    [images], or is rejected when [images] is [None]. *)
Definition askingTool (name : string) (images : option GenerateImagesResponse)
  : Remote :=
  {| remote_sendMessage := fun _ _ _ => Some (toolReply name);
     remote_generateImages := fun _ _ => images |}.

Definition guest : User :=
  {| user_id := "usr_guest";
     user_name := "GUEST";
     user_email := "guest@vairam.ai";
     user_avatarUrl := "" |}.

(** The state after login: no session yet. *)
Definition fresh : AppState :=
  {| app_user := Some guest;
     sessions := [];
     currentSessionId := None;
     loadingState := IDLE |}.

Definition blankMessage : Message :=
  {| msg_id := "msg_1_u";
     msg_role := user;
     msg_content := "";
     msg_attachments := Some [];
     msg_timestamp := 1 |}.

Definition photo : Attachment :=
  {| att_type := image;
     att_content := "data:image/png;base64,iVBORw0KGgo=";
     att_mimeType := "image/png";
     att_name := Some "kite.png" |}.

Definition question : Message :=
  {| msg_id := "msg_10_u";
     msg_role := user;
     msg_content := "What is this?";
     msg_attachments := Some [photo];
     msg_timestamp := 10 |}.

Definition reply : Message :=
  {| msg_id := "msg_12_b";
     msg_role := model;
     msg_content := "A kite.";
     msg_attachments := Some [];
     msg_timestamp := 12 |}.

Definition followUp : Message :=
  {| msg_id := "msg_20_u";
     msg_role := user;
     msg_content := "Which colour?";
     msg_attachments := Some [];
     msg_timestamp := 20 |}.

Definition answer : Message :=
  {| msg_id := "msg_22_b";
     msg_role := model;
     msg_content := "Red.";
     msg_attachments := Some [];
     msg_timestamp := 22 |}.

Definition kites : ChatSession :=
  {| cs_id := "chat_9";
     cs_title := "What is this?";
     cs_messages := [question; reply; followUp; answer];
     cs_createdAt := 9 |}.

Definition older : ChatSession :=
  {| cs_id := "chat_3";
     cs_title := "New Conversation";
     cs_messages := [];
     cs_createdAt := 3 |}.

(** Two sessions, the first one current. *)
Definition chatting : AppState :=
  {| app_user := Some guest;
     sessions := [kites; older];
     currentSessionId := Some "chat_9";
     loadingState := IDLE |}.

(** The same while a turn is in flight. *)
Definition thinking : AppState :=
  {| app_user := Some guest;
     sessions := [kites; older];
     currentSessionId := Some "chat_9";
     loadingState := THINKING |}.

End Examples.

(** ** Concrete data for the further properties *)

Module MoreExamples.

(** The bytes of a generated image, as base64 text. *)
Definition jpeg : string := "/9j/4AAQSkZJRg==".

(** An image backend answer with one image. *)
Definition oneImage : GenerateImagesResponse :=
  {| generatedImages :=
       Some [{| gi_image := Some {| imageBytes := Some jpeg |} |}] |}.

(** An answer that asks for an image but gives no arguments. *)
Definition bareCall : GenerateContentResponse :=
  {| resp_text := None;
     resp_functionCalls :=
       Some [{| fc_name := Some "generate_image";
                fc_id := Some "call_1";
                fc_args := None |}] |}.

Definition askingBare : Remote :=
  {| remote_sendMessage := fun _ _ _ => Some bareCall;
     remote_generateImages := fun _ _ => None |}.

(** A service that answers with an empty text and no tool call. *)
Definition silent : Remote :=
  {| remote_sendMessage :=
       fun _ _ _ => Some {| resp_text := Some ""; resp_functionCalls := None |};
     remote_generateImages := fun _ _ => None |}.

Definition middle : ChatSession :=
  {| cs_id := "chat_5";
     cs_title := "Plans";
     cs_messages := [];
     cs_createdAt := 5 |}.

(** Three sessions, the second one current. *)
Definition browsing : AppState :=
  {| app_user := Some Examples.guest;
     sessions := [Examples.kites; middle; Examples.older];
     currentSessionId := Some "chat_5";
     loadingState := IDLE |}.

End MoreExamples.

(** * Properties *)

(** ** Running the monad *)

Create HintDb run discriminated.
#[global] Hint Unfold ret bind throw try_catch get modify : run.
#[global] Hint Unfold GeminiService.setResponseText GeminiService.initLocals
  GeminiService.pushAttachment GeminiService.logCall
  GeminiService.chat_sendMessage GeminiService.generateImages : run.
#[global] Hint Unfold App.setSessions App.setCurrentSessionId App.setLoadingState
  App.Date_now App.await : run.

Ltac run := autounfold with run; cbn.

(** ** Strings and parts *)

Lemma truthy_true (s : string) : JS.truthy s = true <-> s <> "".
Proof.
  unfold JS.truthy. destruct (String.eqb_spec s ""); cbn; split; congruence.
Qed.

Lemma truthy_false (s : string) : JS.truthy s = false <-> s = "".
Proof.
  unfold JS.truthy. destruct (String.eqb_spec s ""); cbn; split; congruence.
Qed.

Lemma length_zero {A} (l : list A) : (List.length l =? 0)%nat = true <-> l = [].
Proof. destruct l; cbn; split; congruence. Qed.

Lemma length_nonzero {A} (l : list A) : (List.length l =? 0)%nat = false <-> l <> [].
Proof. destruct l; cbn; split; congruence. Qed.

Lemma currentParts_nil (newMessage : string) (newAttachments : list Attachment) :
  GeminiService.currentParts newMessage newAttachments = []
  <-> newMessage = "" /\ newAttachments = [].
Proof.
  unfold GeminiService.currentParts, GeminiService.textParts. split.
  - intros H. apply app_eq_nil in H as [Ha Ht]. split.
    + destruct (JS.truthy newMessage) eqn:E; [discriminate | now apply truthy_false].
    + now destruct newAttachments.
  - intros [-> ->]. reflexivity.
Qed.

(** The turn built for a message that holds [content] and [atts] is the
    message sent for the same [content] and [atts]. *)
Lemma historyTurn_currentParts (m : Message) (atts : list Attachment) :
  msg_attachments m = Some atts ->
  GeminiService.historyTurn m =
    {| role := msg_role m;
       parts := GeminiService.currentParts (msg_content m) atts |}.
Proof.
  intros H. unfold GeminiService.historyTurn, GeminiService.currentParts.
  rewrite H. now destruct atts.
Qed.

(** ** Monad laws used below *)

Section MonadFacts.

Context {S A B : Type}.
Implicit Types (m : St S A) (k : A -> St S B) (s : S).

Lemma bind_ok m k s a s1 :
  m s = (Ok a, s1) -> bind m k s = k a s1.
Proof. unfold bind. now intros ->. Qed.

Lemma bind_throw m k s e s1 :
  m s = (Throw e, s1) -> bind m k s = (Throw e, s1).
Proof. unfold bind. now intros ->. Qed.

Lemma bind_Ok_inv m k s b s2 :
  bind m k s = (Ok b, s2) ->
  exists a s1, m s = (Ok a, s1) /\ k a s1 = (Ok b, s2).
Proof.
  unfold bind. destruct (m s) as [[a | e] s1]; [eauto | discriminate].
Qed.

Lemma try_catch_ok m (h : Exn -> St S A) s a s1 :
  m s = (Ok a, s1) -> try_catch m h s = (Ok a, s1).
Proof. unfold try_catch. now intros ->. Qed.

Lemma try_catch_throw m (h : Exn -> St S A) s e s1 :
  m s = (Throw e, s1) -> try_catch m h s = h e s1.
Proof. unfold try_catch. now intros ->. Qed.

End MonadFacts.

(** ** The service *)

Section ServiceFacts.

Import GeminiService.
Variable remote : Remote.

Lemma chat_sendMessage_answer chat message f r :
  remote_sendMessage remote (calls f) chat message = Some r ->
  chat_sendMessage remote chat message f
  = (Ok (r, afterMessage chat message), withCall (SendMessage chat message) f).
Proof. intros H. run. now rewrite H. Qed.

Lemma chat_sendMessage_reject chat message f :
  remote_sendMessage remote (calls f) chat message = None ->
  chat_sendMessage remote chat message f
  = (Throw RemoteRejected, withCall (SendMessage chat message) f).
Proof. intros H. run. now rewrite H. Qed.

Lemma generateImages_answer prompt f r :
  remote_generateImages remote (calls f) prompt = Some r ->
  generateImages remote prompt f = (Ok r, withCall (imageRequest prompt) f).
Proof. intros H. run. now rewrite H. Qed.

Lemma generateImages_reject prompt f :
  remote_generateImages remote (calls f) prompt = None ->
  generateImages remote prompt f
  = (Throw RemoteRejected, withCall (imageRequest prompt) f).
Proof. intros H. run. now rewrite H. Qed.

Lemma fallbackAndReturn_run f :
  fallbackAndReturn f
  = if isBlank f
    then (Ok {| text := noTextResponse; attachments := generatedAttachments f |},
          withText noTextResponse f)
    else (Ok {| text := responseText f; attachments := generatedAttachments f |}, f).
Proof.
  unfold fallbackAndReturn. run. now destruct (isBlank f).
Qed.

Lemma isBlank_false f :
  isBlank f = false -> responseText f <> "" \/ generatedAttachments f <> [].
Proof.
  unfold isBlank. intros E. apply andb_false_iff in E as [E | E].
  - left. apply truthy_true. now destruct (JS.truthy (responseText f)).
  - right. now apply length_nonzero.
Qed.

Lemma fallbackAndReturn_nonempty f o f' :
  fallbackAndReturn f = (Ok o, f') -> text o <> "" \/ attachments o <> [].
Proof.
  rewrite fallbackAndReturn_run. destruct (isBlank f) eqn:E.
  - intros [= <- _]. left. discriminate.
  - intros [= <- _]. now apply isBlank_false.
Qed.

(** The outer [catch] turns every fault into [FailedToGetResponse]. *)
Lemma sendMessageToGemini_cases history newMessage newAttachments f :
  (exists o f', sendMessageToGemini_try remote history newMessage newAttachments f
                = (Ok o, f')
             /\ sendMessageToGemini remote history newMessage newAttachments f
                = (Ok o, f'))
  \/ (exists e f', sendMessageToGemini_try remote history newMessage newAttachments f
                   = (Throw e, f')
                /\ sendMessageToGemini remote history newMessage newAttachments f
                   = (Throw FailedToGetResponse, f')).
Proof.
  unfold sendMessageToGemini, try_catch.
  destruct (sendMessageToGemini_try _ _ _ _ _) as [[o | e] f']; eauto 6.
Qed.

End ServiceFacts.

(** ** The tool-call resolver *)

Section ResolverFacts.

Import GeminiService.
Variable remote : Remote.

Lemma sendMessageToGemini_try_empty history f :
  sendMessageToGemini_try remote history "" [] f = (Throw MessageCannotBeEmpty, f).
Proof. reflexivity. Qed.

Lemma sendMessageToGemini_empty history f :
  sendMessageToGemini remote history "" [] f = (Throw FailedToGetResponse, f).
Proof. reflexivity. Qed.

Lemma sendMessageToGemini_try_answered history newMessage newAttachments f r :
  GeminiService.currentParts newMessage newAttachments <> [] ->
  remote_sendMessage remote (calls f) (chatFor history)
                     (currentParts newMessage newAttachments) = Some r ->
  sendMessageToGemini_try remote history newMessage newAttachments f
  = bind (handleFunctionCalls remote
            (afterMessage (chatFor history) (currentParts newMessage newAttachments))
            (resp_functionCalls r))
         (fun _ => fallbackAndReturn)
         (withLocals (JS.orElse (resp_text r) "") []
            (withCall (SendMessage (chatFor history)
                                   (currentParts newMessage newAttachments)) f)).
Proof.
  intros Hne Hr. unfold sendMessageToGemini_try.
  apply length_nonzero in Hne. rewrite Hne.
  erewrite bind_ok by (apply chat_sendMessage_answer; exact Hr).
  reflexivity.
Qed.

Lemma sendMessageToGemini_rejected history newMessage newAttachments f :
  GeminiService.currentParts newMessage newAttachments <> [] ->
  remote_sendMessage remote (calls f) (chatFor history)
                     (currentParts newMessage newAttachments) = None ->
  sendMessageToGemini remote history newMessage newAttachments f
  = (Throw FailedToGetResponse,
     withCall (SendMessage (chatFor history)
                           (currentParts newMessage newAttachments)) f).
Proof.
  intros Hne Hr. unfold sendMessageToGemini, sendMessageToGemini_try.
  apply length_nonzero in Hne. rewrite Hne.
  erewrite try_catch_throw
    by (apply bind_throw; apply chat_sendMessage_reject; exact Hr).
  reflexivity.
Qed.

Lemma handleFunctionCalls_first chat call rest :
  handleFunctionCalls remote chat (Some (call :: rest))
  = handleFunctionCalls remote chat (Some [call]).
Proof. reflexivity. Qed.

Lemma handleFunctionCalls_other chat call rest f :
  fc_name call <> Some "generate_image" ->
  handleFunctionCalls remote chat (Some (call :: rest)) f = (Ok tt, f).
Proof.
  intros Hname. unfold handleFunctionCalls.
  destruct (fc_name call) as [name |]; [| reflexivity].
  destruct (String.eqb_spec name "generate_image"); [congruence | reflexivity].
Qed.

(** The image backend is rejected, or answers with no image. *)
Lemma handleFunctionCalls_no_image chat call rest args f :
  fc_name call = Some "generate_image" ->
  fc_args call = Some args ->
  let prompt := option_map snd (find (fun kv => fst kv =? "prompt") args) in
  (remote_generateImages remote (calls f) prompt = None
   \/ exists answer, remote_generateImages remote (calls f) prompt = Some answer
                  /\ JS.orEmpty (generatedImages answer) = []) ->
  exists apologyText,
    (apologyText = imageError \/ apologyText = noImageReturned)
    /\ handleFunctionCalls remote chat (Some (call :: rest)) f
       = (Ok tt, withText apologyText (withCall (imageRequest prompt) f)).
Proof.
  intros Hname Hargs prompt Himg. unfold handleFunctionCalls.
  rewrite Hname, Hargs. cbn [String.eqb Ascii.eqb Bool.eqb].
  erewrite bind_ok by reflexivity. fold prompt.
  unfold generateAndReport.
  destruct Himg as [Hnone | (answer & Hsome & Hempty)].
  - exists imageError. split; [now left |].
    erewrite try_catch_throw
      by (apply bind_throw; apply generateImages_reject; exact Hnone).
    reflexivity.
  - exists noImageReturned. split; [now right |].
    erewrite try_catch_ok; [reflexivity |].
    erewrite bind_ok by (apply generateImages_answer; exact Hsome).
    destruct (generatedImages answer) as [[| first more] |];
      [reflexivity | discriminate | reflexivity].
Qed.

End ResolverFacts.

(** ** Request builder and resolver: the claims *)

Section ServiceClaims.

Import GeminiService.
Variable remote : Remote.

(** The outer [try] is the resolution followed by the fallback block. *)
Lemma sendMessageToGemini_try_resolve history newMessage newAttachments f :
  sendMessageToGemini_try remote history newMessage newAttachments f
  = bind (sendMessageToGemini_resolve remote history newMessage newAttachments)
         (fun _ => fallbackAndReturn) f.
Proof.
  unfold sendMessageToGemini_try, sendMessageToGemini_resolve.
  destruct (List.length _ =? 0)%nat; [reflexivity |].
  unfold bind.
  destruct (chat_sendMessage remote _ _ f) as [[result | e] f1]; [| reflexivity].
  destruct (initLocals _ f1) as [[[] | e] f2]; [| reflexivity].
  now destruct (handleFunctionCalls remote _ _ f2) as [[[] | e] f3].
Qed.

(** C7. The outcome of a successful turn is never fully empty, because the
    canned "no text response" string is substituted: when the resolution (the
    outer [try] up to the fallback block) ends with an empty text and zero
    attachments, [sendMessageToGemini] returns, with that string as text and
    zero attachments; when it ends with a text or an attachment, these are
    returned as they are. So every outcome returned has a text that is not
    empty or at least one attachment, and it comes from a resolution that
    ended normally. *)
Theorem outcome_never_empty history newMessage newAttachments f :
  (forall f2,
      sendMessageToGemini_resolve remote history newMessage newAttachments f
      = (Ok tt, f2) ->
      (responseText f2 = "" -> generatedAttachments f2 = [] ->
       sendMessageToGemini remote history newMessage newAttachments f
       = (Ok {| text := noTextResponse; attachments := [] |},
          withText noTextResponse f2))
      /\ (responseText f2 <> "" \/ generatedAttachments f2 <> [] ->
          sendMessageToGemini remote history newMessage newAttachments f
          = (Ok {| text := responseText f2;
                   attachments := generatedAttachments f2 |}, f2)))
  /\ (forall o f',
        sendMessageToGemini remote history newMessage newAttachments f = (Ok o, f') ->
        (text o <> "" \/ attachments o <> [])
        /\ exists f2,
            sendMessageToGemini_resolve remote history newMessage newAttachments f
            = (Ok tt, f2))
  /\ noTextResponse <> "".
Proof.
  split; [| split; [| discriminate]].
  - intros f2 Hresolve.
    assert (Hrun : sendMessageToGemini remote history newMessage newAttachments f
                   = fallbackAndReturn f2).
    { unfold sendMessageToGemini, try_catch.
      rewrite sendMessageToGemini_try_resolve.
      erewrite bind_ok by exact Hresolve.
      rewrite fallbackAndReturn_run. now destruct (isBlank f2). }
    rewrite Hrun, fallbackAndReturn_run. unfold isBlank. split.
    + intros Htext Hatts. now rewrite Htext, Hatts.
    + intros [Htext | Hatts].
      * now replace (JS.truthy (responseText f2)) with true
          by (symmetry; now apply truthy_true).
      * replace (List.length (generatedAttachments f2) =? 0)%nat with false
          by (symmetry; now apply length_nonzero).
        now rewrite andb_false_r.
  - intros o f' H.
    destruct (sendMessageToGemini_cases remote history newMessage newAttachments f)
      as [(o1 & f1 & Htry & Hsend) | (e & f1 & _ & Hsend)];
      rewrite Hsend in H; [| discriminate H].
    injection H as -> ->.
    rewrite sendMessageToGemini_try_resolve in Htry.
    apply bind_Ok_inv in Htry as ([] & f2 & Hresolve & Hfallback).
    split; [now apply fallbackAndReturn_nonempty in Hfallback | now exists f2].
Qed.

(** C8, as amended. Every message of the history becomes one turn of the
    built history, at the same position and with its role, whose parts are
    one inline part for each attachment followed by the text part when the
    text is not empty; nothing is omitted, so the built history is as long
    as the history. For a message with no attachments and empty text only
    the text part is left out: its turn is kept, with zero parts. *)
Theorem every_message_keeps_its_turn history i msg :
  nth_error history i = Some msg ->
  List.length (chatHistory history) = List.length history
  /\ nth_error (chatHistory history) i
     = Some {| role := msg_role msg;
               parts := (map inlinePart (JS.orEmpty (msg_attachments msg))
                         ++ (if JS.truthy (msg_content msg)
                             then [TextPart (msg_content msg)] else []))%list |}
  /\ (JS.orEmpty (msg_attachments msg) = [] -> msg_content msg = "" ->
      nth_error (chatHistory history) i
      = Some {| role := msg_role msg; parts := [] |}).
Proof.
  intros Hnth.
  assert (Hturn : historyTurn msg
                  = {| role := msg_role msg;
                       parts := (map inlinePart (JS.orEmpty (msg_attachments msg))
                                 ++ (if JS.truthy (msg_content msg)
                                     then [TextPart (msg_content msg)]
                                     else []))%list |}).
  { unfold historyTurn, textParts.
    now destruct (msg_attachments msg) as [[| a atts] |]. }
  unfold chatHistory. split; [apply length_map |].
  rewrite nth_error_map, Hnth. cbn [option_map]. rewrite Hturn.
  split; [reflexivity |].
  intros Hatts Hcontent. now rewrite Hatts, Hcontent.
Qed.

(** C10, as amended. When the first tool call of the answer is not named
    "generate_image", the block that handles function calls changes
    nothing, whatever tool calls follow the first; no image is requested,
    the outcome has zero attachments, and its text is the initial response
    text, or the canned "no text response" string when that text is
    empty. Tool calls after the first are never looked at. *)
Theorem other_tool_calls_are_ignored history newMessage newAttachments f r call rest :
  currentParts newMessage newAttachments <> [] ->
  remote_sendMessage remote (calls f) (chatFor history)
                     (currentParts newMessage newAttachments) = Some r ->
  resp_functionCalls r = Some (call :: rest) ->
  fc_name call <> Some "generate_image" ->
  let initial := JS.orElse (resp_text r) "" in
  (forall chat f0,
      handleFunctionCalls remote chat (Some (call :: rest)) f0 = (Ok tt, f0))
  /\ (forall chat anyCall,
      handleFunctionCalls remote chat (Some (anyCall :: rest))
      = handleFunctionCalls remote chat (Some [anyCall]))
  /\ exists f',
      sendMessageToGemini remote history newMessage newAttachments f
      = (Ok {| text := if JS.truthy initial then initial else noTextResponse;
               attachments := [] |}, f')
      /\ calls f' = (calls f ++ [SendMessage (chatFor history)
                                   (currentParts newMessage newAttachments)])%list.
Proof.
  intros Hne Hr Hcalls Hname initial. split; [| split].
  - intros chat f0. now apply handleFunctionCalls_other.
  - reflexivity.
  - set (f1 := withLocals initial []
                 (withCall (SendMessage (chatFor history)
                              (currentParts newMessage newAttachments)) f)).
    assert (Htry :
      sendMessageToGemini_try remote history newMessage newAttachments f
      = (Ok {| text := if JS.truthy initial then initial else noTextResponse;
               attachments := [] |},
         if JS.truthy initial then f1 else withText noTextResponse f1)).
    { rewrite (sendMessageToGemini_try_answered _ _ _ _ _ Hne Hr), Hcalls.
      erewrite bind_ok by (now apply handleFunctionCalls_other).
      rewrite fallbackAndReturn_run. unfold isBlank. cbn. fold initial f1.
      now destruct (JS.truthy initial). }
    unfold sendMessageToGemini. rewrite (try_catch_ok _ _ _ Htry).
    eexists. split; [reflexivity |].
    now destruct (JS.truthy initial).
Qed.

End ServiceClaims.

(** C7 at a service that answers with an empty text and no tool call: the
    canned string is returned. *)
Lemma outcome_never_empty_witness :
  fst (GeminiService.sendMessageToGemini MoreExamples.silent [] "hi" []
         (GeminiService.enter []))
  = Ok {| GeminiService.text := GeminiService.noTextResponse;
          GeminiService.attachments := [] |}.
Proof.
  destruct (@outcome_never_empty MoreExamples.silent [] "hi" []
              (GeminiService.enter [])) as (Hfallback & _ & _).
  destruct (Hfallback _ eq_refl) as (Hblank & _).
  now rewrite (Hblank eq_refl eq_refl).
Defined.

(** C8 as stated fails: a history that holds one message with empty text and
    no attachments is built into a history of one turn with zero parts, and
    that turn is part of the request. *)
Lemma blank_turn_is_sent :
  GeminiService.chatHistory [Examples.blankMessage]
  = [{| role := user; parts := [] |}]
  /\ GeminiService.calls
       (snd (GeminiService.sendMessageToGemini (Examples.answering "ok")
               [Examples.blankMessage] "hi" [] (GeminiService.enter [])))
     = [SendMessage {| chat_model := "gemini-2.5-flash";
                       chat_history := [{| role := user; parts := [] |}];
                       chat_sent := [] |}
                    [TextPart "hi"]].
Proof. split; reflexivity. Qed.

(** C8, as amended, on a history of three messages: the model turn keeps
    its role and place, the blank message its turn. *)
Lemma every_message_keeps_its_turn_witness :
  List.length (GeminiService.chatHistory
                 [Examples.question; Examples.reply; Examples.blankMessage]) = 3%nat
  /\ nth_error (GeminiService.chatHistory
                  [Examples.question; Examples.reply; Examples.blankMessage]) 1
     = Some {| role := model; parts := [TextPart "A kite."] |}
  /\ nth_error (GeminiService.chatHistory
                  [Examples.question; Examples.reply; Examples.blankMessage]) 2
     = Some {| role := user; parts := [] |}.
Proof.
  destruct (@every_message_keeps_its_turn
              [Examples.question; Examples.reply; Examples.blankMessage]
              1 Examples.reply eq_refl) as (Hlen & Hreply & _).
  destruct (@every_message_keeps_its_turn
              [Examples.question; Examples.reply; Examples.blankMessage]
              2 Examples.blankMessage eq_refl) as (_ & _ & Hblank).
  split; [exact Hlen | split; [exact Hreply | exact (Hblank eq_refl eq_refl)]].
Defined.

(** C10 as stated fails: the answer asks for a tool named "get_weather" and
    has no text; the outcome's text is not that empty text but the canned
    "no text response" string. *)
Lemma other_tool_blank_text_is_replaced :
  JS.orElse (resp_text (Examples.toolReply "get_weather")) "" = ""
  /\ fst (GeminiService.sendMessageToGemini
            (Examples.askingTool "get_weather" None) [] "hi" []
            (GeminiService.enter []))
     = Ok {| GeminiService.text := GeminiService.noTextResponse;
             GeminiService.attachments := [] |}
  /\ GeminiService.noTextResponse <> "".
Proof. split; [reflexivity | split; [reflexivity | discriminate]]. Qed.

Lemma other_tool_calls_are_ignored_witness :
  exists f',
    GeminiService.sendMessageToGemini
      (Examples.askingTool "get_weather" None) [] "hi" [] (GeminiService.enter [])
    = (Ok {| GeminiService.text := GeminiService.noTextResponse;
             GeminiService.attachments := [] |}, f')
    /\ GeminiService.calls f'
       = [SendMessage (GeminiService.chatFor []) [TextPart "hi"]].
Proof.
  refine (proj2 (proj2
    (@other_tool_calls_are_ignored (Examples.askingTool "get_weather" None)
       [] "hi" [] (GeminiService.enter []) (Examples.toolReply "get_weather")
       _ [] _ eq_refl eq_refl _))).
  - discriminate.
  - discriminate.
Defined.

(** ** The turn controller *)

Section ControllerFacts.

Import GeminiService.
Variable now : nat -> Z.
Variable remote : Remote.

Lemma handleError_run app w :
  App.handleError now app w
  = (Ok tt,
     App.withLoading IDLE
       (App.withSessions
          (App.appendMessage (currentSessionId app)
             (App.errorMessage (now (ticks w)) (now (S (ticks w)))))
          (App.tick (App.tick (App.withLoading ERROR w))))).
Proof. reflexivity. Qed.

Lemma receiveReply_ok target history content atts w o f :
  sendMessageToGemini remote history content atts (enter (requests w)) = (Ok o, f) ->
  App.receiveReply now remote target history content atts w
  = (Ok tt,
     App.withLoading IDLE
       (App.withSessions
          (App.appendMessage target
             (App.botMessage o (now (ticks w)) (now (S (ticks w)))))
          (App.tick (App.tick (App.withRequests (calls f) w))))).
Proof.
  intros H. unfold App.receiveReply.
  erewrite bind_ok by (unfold App.await; rewrite H; reflexivity).
  reflexivity.
Qed.

Lemma receiveReply_throw target history content atts w e f :
  sendMessageToGemini remote history content atts (enter (requests w)) = (Throw e, f) ->
  App.receiveReply now remote target history content atts w
  = (Throw e, App.withRequests (calls f) w).
Proof.
  intros H. unfold App.receiveReply.
  erewrite bind_throw by (unfold App.await; rewrite H; reflexivity).
  reflexivity.
Qed.

(** The first part of a send never fails; it adds [THINKING] to the trace
    and sends nothing. *)
Lemma handleSendMessage_begin_run app content atts w :
  exists sid stamp1 stamp2 w1,
    App.handleSendMessage_begin now app content atts w
    = (Ok (sid, App.userMessage content atts stamp1 stamp2), w1)
    /\ loadingTrace w1 = (loadingTrace w ++ [THINKING])%list
    /\ loadingState (live w1) = THINKING
    /\ requests w1 = requests w.
Proof.
  unfold App.handleSendMessage_begin.
  destruct (App.selected (currentSessionId app)) as [sid |];
    do 4 eexists; (split; [reflexivity | cbn; auto]).
Qed.

Lemma handleSendMessage_split app content atts w sid newMessage w1 :
  App.handleSendMessage_begin now app content atts w = (Ok (sid, newMessage), w1) ->
  App.handleSendMessage now remote app content atts w
  = try_catch
      (App.receiveReply now remote (Some sid)
         (App.contextMessages app sid newMessage) content atts)
      (fun _ => App.handleError now app) w1.
Proof.
  intros H. unfold App.handleSendMessage. now rewrite (bind_ok _ _ _ H).
Qed.

(** A turn whose service call returns: the reply is appended to the
    target session and the loading state is [IDLE] again. *)
Lemma handleSendMessage_ok app content atts w sid newMessage w1 o f :
  App.handleSendMessage_begin now app content atts w = (Ok (sid, newMessage), w1) ->
  sendMessageToGemini remote (App.contextMessages app sid newMessage)
                      content atts (enter (requests w1)) = (Ok o, f) ->
  App.handleSendMessage now remote app content atts w
  = (Ok tt,
     App.withLoading IDLE
       (App.withSessions
          (App.appendMessage (Some sid)
             (App.botMessage o (now (ticks w1)) (now (S (ticks w1)))))
          (App.tick (App.tick (App.withRequests (calls f) w1))))).
Proof.
  intros Hb Hs. erewrite handleSendMessage_split by eassumption.
  erewrite try_catch_ok by (apply receiveReply_ok; eassumption).
  reflexivity.
Qed.

(** A turn whose service call fails: [handleError] runs, with the session
    id of the closure. *)
Lemma handleSendMessage_failed app content atts w sid newMessage w1 e f :
  App.handleSendMessage_begin now app content atts w = (Ok (sid, newMessage), w1) ->
  sendMessageToGemini remote (App.contextMessages app sid newMessage)
                      content atts (enter (requests w1)) = (Throw e, f) ->
  App.handleSendMessage now remote app content atts w
  = App.handleError now app (App.withRequests (calls f) w1).
Proof.
  intros Hb Hs. erewrite handleSendMessage_split by eassumption.
  erewrite try_catch_throw by (apply receiveReply_throw; eassumption).
  reflexivity.
Qed.

End ControllerFacts.

Section TurnFacts.

Import GeminiService.
Variable now : nat -> Z.
Variable remote : Remote.

(** The image backend fails after the model asked for an image: the
    service still returns, with an apology and no attachment. *)
Lemma sendMessageToGemini_no_image history newMessage newAttachments f r
      call rest args :
  currentParts newMessage newAttachments <> [] ->
  let request := SendMessage (chatFor history)
                             (currentParts newMessage newAttachments) in
  remote_sendMessage remote (calls f) (chatFor history)
                     (currentParts newMessage newAttachments) = Some r ->
  resp_functionCalls r = Some (call :: rest) ->
  fc_name call = Some "generate_image" ->
  fc_args call = Some args ->
  let prompt := option_map snd (find (fun kv => fst kv =? "prompt") args) in
  (remote_generateImages remote (calls f ++ [request]) prompt = None
   \/ exists answer,
       remote_generateImages remote (calls f ++ [request]) prompt = Some answer
       /\ JS.orEmpty (generatedImages answer) = []) ->
  exists apologyText f',
    (apologyText = imageError \/ apologyText = noImageReturned)
    /\ sendMessageToGemini remote history newMessage newAttachments f
       = (Ok {| text := apologyText; attachments := [] |}, f')
    /\ calls f' = (calls f ++ [request; imageRequest prompt])%list.
Proof.
  intros Hne request Hr Hcalls Hname Hargs prompt Himg.
  set (f1 := withLocals (JS.orElse (resp_text r) "") [] (withCall request f)).
  destruct (handleFunctionCalls_no_image remote
              (afterMessage (chatFor history)
                            (currentParts newMessage newAttachments))
              call rest f1 Hname Hargs Himg)
    as (apologyText & Hwhich & Hblock).
  exists apologyText, (withText apologyText (withCall (imageRequest prompt) f1)).
  split; [exact Hwhich | split].
  - unfold sendMessageToGemini. erewrite try_catch_ok; [reflexivity |].
    rewrite (sendMessageToGemini_try_answered _ _ _ _ _ Hne Hr), Hcalls.
    fold request f1. rewrite (bind_ok _ _ _ Hblock).
    rewrite fallbackAndReturn_run.
    now destruct Hwhich as [-> | ->].
  - cbn. now rewrite <- app_assoc.
Qed.

Lemma handleSendMessage_begin_facts app content atts w sid newMessage w1 :
  App.handleSendMessage_begin now app content atts w = (Ok (sid, newMessage), w1) ->
  loadingTrace w1 = (loadingTrace w ++ [THINKING])%list
  /\ loadingState (live w1) = THINKING
  /\ requests w1 = requests w
  /\ msg_role newMessage = user
  /\ msg_content newMessage = content
  /\ msg_attachments newMessage = Some atts.
Proof.
  intros H.
  destruct (handleSendMessage_begin_run now app content atts w)
    as (sid' & t1 & t2 & w1' & Hrun & Htrace & Hstate & Hreq).
  rewrite Hrun in H. injection H as <- <- <-. auto 7.
Qed.

(** The first part of an edit that goes on to the service: a session is
    current, [THINKING] is added to the trace, and nothing is sent. *)
Lemma handleEditMessage_begin_facts app messageId newContent w history atts w1 :
  App.handleEditMessage_begin now app messageId newContent w
  = (Ok (Some (history, atts)), w1) ->
  (exists sid, currentSessionId app = Some sid)
  /\ loadingTrace w1 = (loadingTrace w ++ [THINKING])%list
  /\ loadingState (live w1) = THINKING
  /\ requests w1 = requests w.
Proof.
  unfold App.handleEditMessage_begin, App.selected.
  destruct (currentSessionId app) as [sid |]; [| discriminate].
  destruct (JS.truthy sid); [| discriminate].
  destruct (find _ (sessions app)) as [currentSession |]; [| discriminate].
  destruct (JS.findIndex _ _) as [msgIndex |]; [| discriminate].
  destruct (nth_error _ _) as [original |]; [| discriminate].
  intros [= _ _ <-]. cbn. eauto.
Qed.

(** An edit whose service call returns: the reply is appended to the
    current session of the closure and the loading state is [IDLE] again. *)
Lemma handleEditMessage_ok app messageId newContent w history atts w1 o f :
  App.handleEditMessage_begin now app messageId newContent w
  = (Ok (Some (history, atts)), w1) ->
  sendMessageToGemini remote history newContent atts (enter (requests w1))
  = (Ok o, f) ->
  App.handleEditMessage now remote app messageId newContent w
  = (Ok tt,
     App.withLoading IDLE
       (App.withSessions
          (App.appendMessage (currentSessionId app)
             (App.botMessage o (now (ticks w1)) (now (S (ticks w1)))))
          (App.tick (App.tick (App.withRequests (calls f) w1))))).
Proof.
  intros Hb Hs. unfold App.handleEditMessage.
  erewrite bind_ok by exact Hb. cbv beta iota.
  erewrite try_catch_ok by (apply receiveReply_ok; eassumption).
  reflexivity.
Qed.

(** The send flow gives the service a history that ends with the new
    message itself. *)
Lemma contextMessages_ends_with_new app sid newMessage :
  exists previous,
    App.contextMessages app sid newMessage = (previous ++ [newMessage])%list.
Proof. unfold App.contextMessages. eauto. Qed.

(** So the built history of a send ends with a turn that carries the very
    parts that are then sent as the new message. *)
Lemma send_history_repeats_the_new_turn app content atts w sid newMessage w1 :
  App.handleSendMessage_begin now app content atts w = (Ok (sid, newMessage), w1) ->
  exists previous,
    App.contextMessages app sid newMessage = (previous ++ [newMessage])%list
    /\ chatHistory (App.contextMessages app sid newMessage)
       = (chatHistory previous
          ++ [{| role := user; parts := currentParts content atts |}])%list.
Proof.
  intros Hb.
  destruct (@handleSendMessage_begin_facts _ _ _ _ _ _ _ Hb)
    as (_ & _ & _ & Hrole & Hcontent & Hatts).
  destruct (contextMessages_ends_with_new app sid newMessage) as (previous & Hctx).
  exists previous. split; [exact Hctx |].
  rewrite Hctx. unfold chatHistory. rewrite map_app. cbn.
  now rewrite (historyTurn_currentParts _ Hatts), Hrole, Hcontent.
Qed.

Lemma appendMessage_none m l : App.appendMessage None m l = l.
Proof. unfold App.appendMessage. cbn. apply map_id. Qed.

(** A failing turn of the send flow: the loading state goes through
    [THINKING] and [ERROR] back to [IDLE], nothing is thrown, and the
    apology goes to the sessions whose id is the [currentSessionId] of the
    closure. *)
Lemma handleSendMessage_failed_run app content atts w sid newMessage w1 e f :
  App.handleSendMessage_begin now app content atts w = (Ok (sid, newMessage), w1) ->
  sendMessageToGemini remote (App.contextMessages app sid newMessage)
                      content atts (enter (requests w1)) = (Throw e, f) ->
  exists w2,
    App.handleSendMessage now remote app content atts w = (Ok tt, w2)
    /\ loadingTrace w2 = (loadingTrace w ++ [THINKING; ERROR; IDLE])%list
    /\ loadingState (live w2) = IDLE
    /\ requests w2 = calls f
    /\ sessions (live w2)
       = App.appendMessage (currentSessionId app)
           (App.errorMessage (now (ticks w1)) (now (S (ticks w1))))
           (sessions (live w1)).
Proof.
  intros Hb Hs.
  destruct (handleSendMessage_begin_facts _ _ _ _ Hb) as (Htrace & _).
  erewrite handleSendMessage_failed by eassumption.
  rewrite handleError_run. eexists. split; [reflexivity |].
  cbn. rewrite Htrace, <- !app_assoc. auto.
Qed.

(** With no session selected, the apology of a failing send is lost: the
    session list is the one the first part of the send left. *)
Lemma failed_send_without_session app content atts w sid newMessage w1 e f :
  currentSessionId app = None ->
  App.handleSendMessage_begin now app content atts w = (Ok (sid, newMessage), w1) ->
  sendMessageToGemini remote (App.contextMessages app sid newMessage)
                      content atts (enter (requests w1)) = (Throw e, f) ->
  exists w2,
    App.handleSendMessage now remote app content atts w = (Ok tt, w2)
    /\ sessions (live w2) = sessions (live w1).
Proof.
  intros Hnone Hb Hs.
  destruct (handleSendMessage_failed_run _ _ _ _ Hb Hs)
    as (w2 & Hrun & _ & _ & _ & Hsessions).
  exists w2. split; [exact Hrun |].
  now rewrite Hsessions, Hnone, appendMessage_none.
Qed.

End TurnFacts.

(** ** Turn controller: the claims *)

Section ControllerClaims.

Import GeminiService.
Variable now : nat -> Z.
Variable remote : Remote.

(** C3. A turn whose first answer asks for the tool "generate_image" (with
    arguments) and whose image backend is rejected or answers with no image:
    the fault stays inside the resolver. [sendMessageToGemini] returns an
    outcome whose text is one of the two canned apologies, which are not
    empty, with zero attachments. So the turn completes, in the send flow
    ([handleSendMessage]) and in the edit flow ([handleEditMessage]) alike:
    the handler returns normally, the loading state goes [THINKING] then
    [IDLE] and never [ERROR], the target session gets one more message, of
    role [model], with the apology as content and zero attachments, the other
    sessions are untouched, and only the first message and the image request
    reach the network. *)
Theorem image_failure_is_absorbed history content atts log r call rest args :
  currentParts content atts <> [] ->
  let request := SendMessage (chatFor history) (currentParts content atts) in
  remote_sendMessage remote log (chatFor history)
                     (currentParts content atts) = Some r ->
  resp_functionCalls r = Some (call :: rest) ->
  fc_name call = Some "generate_image" ->
  fc_args call = Some args ->
  let prompt := option_map snd (find (fun kv => fst kv =? "prompt") args) in
  (remote_generateImages remote (log ++ [request]) prompt = None
   \/ exists answer,
       remote_generateImages remote (log ++ [request]) prompt = Some answer
       /\ JS.orEmpty (generatedImages answer) = []) ->
  exists apologyText,
    (apologyText = imageError \/ apologyText = noImageReturned)
    /\ apologyText <> ""
    /\ fst (sendMessageToGemini remote history content atts (enter log))
       = Ok {| text := apologyText; attachments := [] |}
    /\ let stored (sid : string) (w1 : World) :=
         map (fun session =>
                if cs_id session =? sid
                then {| cs_id := cs_id session;
                        cs_title := cs_title session;
                        cs_messages :=
                          (cs_messages session
                           ++ [{| msg_id := "msg_" ++ JS.showZ (now (ticks w1))
                                                   ++ "_b";
                                  msg_role := model;
                                  msg_content := apologyText;
                                  msg_attachments := Some [];
                                  msg_timestamp := now (S (ticks w1)) |}])%list;
                        cs_createdAt := cs_createdAt session |}
                else session)
             (sessions (live w1)) in
       (forall app w sid newMessage w1,
           App.handleSendMessage_begin now app content atts w
           = (Ok (sid, newMessage), w1) ->
           App.contextMessages app sid newMessage = history ->
           requests w = log ->
           exists w2,
             App.handleSendMessage now remote app content atts w = (Ok tt, w2)
             /\ loadingTrace w2 = (loadingTrace w ++ [THINKING; IDLE])%list
             /\ loadingState (live w2) = IDLE
             /\ sessions (live w2) = stored sid w1
             /\ currentSessionId (live w2) = currentSessionId (live w1)
             /\ requests w2 = (log ++ [request; imageRequest prompt])%list)
       /\ (forall app w messageId w1,
             App.handleEditMessage_begin now app messageId content w
             = (Ok (Some (history, atts)), w1) ->
             requests w = log ->
             exists sid w2,
               currentSessionId app = Some sid
               /\ App.handleEditMessage now remote app messageId content w
                  = (Ok tt, w2)
               /\ loadingTrace w2 = (loadingTrace w ++ [THINKING; IDLE])%list
               /\ loadingState (live w2) = IDLE
               /\ sessions (live w2) = stored sid w1
               /\ currentSessionId (live w2) = currentSessionId (live w1)
               /\ requests w2 = (log ++ [request; imageRequest prompt])%list).
Proof.
  intros Hne request Hr Hcalls Hname Hargs prompt Himg.
  destruct (@sendMessageToGemini_no_image remote history content atts
              (enter log) r call rest args
              Hne Hr Hcalls Hname Hargs Himg)
    as (apologyText & f' & Hwhich & Hsend & Hlog).
  cbn [enter calls] in Hlog.
  exists apologyText. split; [exact Hwhich |].
  split; [destruct Hwhich as [-> | ->]; discriminate |].
  split; [now rewrite Hsend |].
  intros stored. split.
  - intros app w sid newMessage w1 Hb Hctx Hreq0.
    destruct (@handleSendMessage_begin_facts now _ _ _ _ _ _ _ Hb)
      as (Htrace & _ & Hreq & _).
    eexists. split.
    + eapply handleSendMessage_ok; [exact Hb |].
      rewrite Hctx, Hreq, Hreq0. exact Hsend.
    + cbn. rewrite Htrace, <- app_assoc, Hlog. auto 6.
  - intros app w messageId w1 Hb Hreq0.
    destruct (@handleEditMessage_begin_facts now _ _ _ _ _ _ _ Hb)
      as ((sid & Hcurrent) & Htrace & _ & Hreq).
    exists sid. eexists. split; [exact Hcurrent |]. split.
    + eapply handleEditMessage_ok; [exact Hb |].
      rewrite Hreq, Hreq0. exact Hsend.
    + cbn. rewrite Htrace, <- app_assoc, Hlog, Hcurrent. auto 6.
Qed.

(** C4, as amended. A send with empty text and zero attachments: the
    request builder throws the empty-message fault before any remote call,
    for every history; [handleSendMessage] then returns normally without a
    single request, while the loading state goes [THINKING], [ERROR] and
    back to [IDLE]; and [handleSend], the only caller, rejects such an input
    up front and changes nothing. *)
Theorem empty_send_never_reaches_the_service app w history f :
  sendMessageToGemini_try remote history "" [] f = (Throw MessageCannotBeEmpty, f)
  /\ (exists w2,
        App.handleSendMessage now remote app "" [] w = (Ok tt, w2)
        /\ requests w2 = requests w
        /\ loadingTrace w2 = (loadingTrace w ++ [THINKING; ERROR; IDLE])%list
        /\ loadingState (live w2) = IDLE)
  /\ ChatWindow.handleSend now remote app "" [] w = (Ok ("", []), w).
Proof.
  split; [reflexivity | split; [| reflexivity]].
  destruct (handleSendMessage_begin_run now app "" [] w)
    as (sid & t1 & t2 & w1 & Hb & _ & _ & Hreq).
  destruct (@handleSendMessage_failed_run now remote _ _ _ _ _ _ _ _ _ Hb
              (sendMessageToGemini_empty remote _ _))
    as (w2 & Hrun & Htrace & Hstate & Hlog & _).
  exists w2. cbn in Hlog. rewrite Hrun, Hlog, Hreq. auto.
Qed.

(** C6. While the loading state is not [IDLE], [handleSend] returns at
    once: the world is left as it was (no session created or changed, no
    message appended, no request sent, no clock reading) and the input of
    the component is kept. *)
Theorem send_while_loading_is_a_noop app input atts w :
  loadingState app <> IDLE ->
  ChatWindow.handleSend now remote app input atts w = (Ok (input, atts), w).
Proof.
  intros Hbusy. unfold ChatWindow.handleSend.
  replace (LoadingState_eqb (loadingState app) IDLE) with false
    by (destruct (loadingState app); [contradiction | reflexivity ..]).
  now rewrite orb_true_r.
Qed.

End ControllerClaims.

(** ** The conversation state store *)

Lemma findIndex_first {A} (p : A -> bool) (l : list A) (k : nat) (x : A) :
  nth_error l k = Some x ->
  p x = true ->
  (forall j y, (j < k)%nat -> nth_error l j = Some y -> p y = false) ->
  JS.findIndex p l = Some k.
Proof.
  revert k. induction l as [| a l IH]; intros k Hnth Hp Hfirst.
  - now destruct k.
  - destruct k as [| k]; cbn in *.
    + injection Hnth as ->. now rewrite Hp.
    + rewrite (Hfirst 0%nat a) by (reflexivity || lia).
      rewrite (IH k Hnth Hp); [reflexivity |].
      intros j y Hj Hy. apply (Hfirst (S j) y); [lia | exact Hy].
Qed.

Lemma find_map_same_id (sid : string) (g : ChatSession -> ChatSession)
      (l : list ChatSession) :
  (forall s, cs_id (g s) = cs_id s) ->
  find (fun s => cs_id s =? sid) (map g l)
  = option_map g (find (fun s => cs_id s =? sid) l).
Proof.
  intros Hid. induction l as [| a l IH]; [reflexivity |].
  cbn. rewrite Hid. now destruct (cs_id a =? sid).
Qed.

Lemma find_some_id (sid : string) (l : list ChatSession) (s : ChatSession) :
  find (fun s => cs_id s =? sid) l = Some s -> (cs_id s =? sid) = true.
Proof. intros H. now apply find_some in H. Qed.

Lemma selected_some (c : option string) (sid : string) :
  App.selected c = Some sid -> c = Some sid.
Proof.
  destruct c as [s |]; cbn; [| discriminate].
  destruct (JS.truthy s); [congruence | discriminate].
Qed.

Section StoreClaims.

Variable now : nat -> Z.
Variable remote : Remote.

(** The [try]/[catch] of a turn always returns: it appends one model
    message, the reply to [target] or the apology to the [currentSessionId]
    of the closure, and leaves the loading state [IDLE]. *)
Lemma turn_appends_one_reply app target history content atts w1 :
  exists w2 replyMessage,
    try_catch (App.receiveReply now remote target history content atts)
              (fun _ => App.handleError now app) w1 = (Ok tt, w2)
    /\ msg_role replyMessage = model
    /\ loadingState (live w2) = IDLE
    /\ (sessions (live w2)
        = App.appendMessage target replyMessage (sessions (live w1))
        \/ sessions (live w2)
           = App.appendMessage (currentSessionId app) replyMessage
                               (sessions (live w1))).
Proof.
  destruct (sendMessageToGemini_cases remote history content atts
              (GeminiService.enter (requests w1)))
    as [(o & f & _ & Hsend) | (e & f & _ & Hsend)].
  - erewrite try_catch_ok by (apply receiveReply_ok; exact Hsend).
    eexists. exists (App.botMessage o (now (ticks w1)) (now (S (ticks w1)))).
    split; [reflexivity |].
    split; [| split; [| left]]; reflexivity.
  - erewrite try_catch_throw by (apply receiveReply_throw; exact Hsend).
    rewrite handleError_run.
    eexists. exists (App.errorMessage (now (ticks w1)) (now (S (ticks w1)))).
    split; [reflexivity |].
    split; [| split; [| right]]; reflexivity.
Qed.

(** C5. Editing the user message at position [k] of the current session
    (the edit names the message by its id, so [k] is the first position
    with that id): the session then holds exactly [k + 1] messages, so the
    messages after position [k] are gone; the messages before [k] are the
    same; the message at [k] keeps its id, its role and its attachments,
    and has the new content and a new timestamp. The history handed to the
    turn is the part before [k], with the attachments of the message. The
    turn that follows returns normally and adds one model message after
    position [k]. *)
Theorem edit_replaces_and_truncates app w sid session k m newContent :
  App.selected (currentSessionId app) = Some sid ->
  find (fun s => cs_id s =? sid) (sessions app) = Some session ->
  sessions (live w) = sessions app ->
  nth_error (cs_messages session) k = Some m ->
  msg_role m = user ->
  (forall j m', (j < k)%nat -> nth_error (cs_messages session) j = Some m' ->
                msg_id m' <> msg_id m) ->
  exists w1 session' edited,
    App.handleEditMessage_begin now app (msg_id m) newContent w
    = (Ok (Some (firstn k (cs_messages session),
                 JS.orEmpty (msg_attachments m))), w1)
    /\ find (fun s => cs_id s =? sid) (sessions (live w1)) = Some session'
    /\ List.length (cs_messages session') = S k
    /\ (forall j, (j < k)%nat ->
                  nth_error (cs_messages session') j
                  = nth_error (cs_messages session) j)
    /\ nth_error (cs_messages session') k = Some edited
    /\ msg_content edited = newContent
    /\ msg_timestamp edited = now (ticks w)
    /\ JS.orEmpty (msg_attachments edited) = JS.orEmpty (msg_attachments m)
    /\ msg_id edited = msg_id m
    /\ msg_role edited = user
    /\ exists w2 session'' replyMessage,
        App.handleEditMessage now remote app (msg_id m) newContent w = (Ok tt, w2)
        /\ find (fun s => cs_id s =? sid) (sessions (live w2)) = Some session''
        /\ cs_messages session'' = (cs_messages session' ++ [replyMessage])%list
        /\ msg_role replyMessage = model.
Proof.
  intros Hsel Hfind Hlive Hnth Hrole Hfirst.
  assert (Hk : (k < List.length (cs_messages session))%nat)
    by (apply nth_error_Some; congruence).
  assert (Hindex : JS.findIndex (fun x => msg_id x =? msg_id m)
                                (cs_messages session) = Some k).
  { apply findIndex_first with (x := m); [exact Hnth | apply String.eqb_refl |].
    intros j y Hj Hy. apply String.eqb_neq. eauto. }
  pose proof (find_some_id _ _ Hfind) as Hsid.
  set (edited := App.updatedUserMessage m newContent (now (ticks w))).
  set (kept := (firstn k (cs_messages session) ++ [edited])%list).
  set (cut := fun s => if cs_id s =? sid
                       then App.withMessages (cs_title s) kept s else s).
  set (w1 := App.withLoading THINKING (App.withSessions (map cut) (App.tick w))).
  assert (Hcut : forall s, cs_id (cut s) = cs_id s)
    by (intros s; unfold cut; now destruct (cs_id s =? sid)).
  assert (Hbegin : App.handleEditMessage_begin now app (msg_id m) newContent w
                   = (Ok (Some (firstn k (cs_messages session),
                                JS.orEmpty (msg_attachments m))), w1)).
  { unfold App.handleEditMessage_begin.
    now rewrite Hsel, Hfind, Hindex, Hnth. }
  assert (Hfound : find (fun s => cs_id s =? sid) (sessions (live w1))
                   = Some (App.withMessages (cs_title session) kept session)).
  { cbn. rewrite Hlive, (find_map_same_id _ _ _ Hcut), Hfind. cbn.
    unfold cut. now rewrite Hsid. }
  exists w1, (App.withMessages (cs_title session) kept session), edited.
  cbn [cs_messages App.withMessages].
  split; [exact Hbegin |].
  split; [exact Hfound |].
  split; [unfold kept; rewrite length_app, length_firstn; cbn; lia |].
  split.
  { intros j Hj. unfold kept.
    rewrite nth_error_app1 by (rewrite length_firstn; lia).
    rewrite nth_error_firstn.
    now replace (j <? k)%nat with true by (symmetry; apply Nat.ltb_lt; lia). }
  split.
  { unfold kept. rewrite nth_error_app2 by (rewrite length_firstn; lia).
    rewrite length_firstn.
    now replace (k - Nat.min k (List.length (cs_messages session)))%nat
      with 0%nat by lia. }
  do 5 (split; [now auto |]).
  unfold App.handleEditMessage. rewrite (bind_ok _ _ _ Hbegin).
  destruct (turn_appends_one_reply app (currentSessionId app)
              (firstn k (cs_messages session))
              newContent (JS.orEmpty (msg_attachments m)) w1)
    as (w2 & replyMessage & Hturn & Hmodel & _ & Hsessions).
  exists w2, (App.withMessages (cs_title session) (kept ++ [replyMessage]) session),
         replyMessage.
  split; [exact Hturn |].
  split; [| now split].
  assert (Happend : sessions (live w2)
                    = App.appendMessage (Some sid) replyMessage (sessions (live w1)))
    by (rewrite <- (selected_some _ Hsel); now destruct Hsessions).
  rewrite Happend. unfold App.appendMessage.
  rewrite find_map_same_id, Hfound.
  2:{ intros s. now destruct (JS.eqId (cs_id s) (Some sid)). }
  cbn. now rewrite Hsid.
Qed.

(** C9, as amended. With a user logged in, [createNewChat] puts a new,
    empty session at the head of the session list and makes it current.
    [handleDeleteChat] leaves exactly the sessions with another id, in
    their order; when the deleted session was current, the current session
    becomes the first of the remaining list, or none when nothing remains.
    That first session is the one that followed the deleted session only
    when the deleted session was at the head; when another session is at
    the head, it is that session, which came before the deleted one.
    Deleting a session that is not current leaves the selection alone. *)
Theorem create_and_delete_session app w u id :
  app_user app = Some u ->
  (exists created w',
      App.createNewChat now app w = (Ok tt, w')
      /\ sessions (live w') = created :: sessions (live w)
      /\ cs_messages created = []
      /\ currentSessionId (live w') = Some (cs_id created))
  /\ (exists w',
      let remaining := filter (fun s => negb (cs_id s =? id)) (sessions app) in
      App.handleDeleteChat app id w = (Ok tt, w')
      /\ sessions (live w') = remaining
      /\ (forall s, In s remaining <-> In s (sessions app) /\ cs_id s <> id)
      /\ (forall first rest,
            sessions app = first :: rest -> cs_id first = id ->
            (forall s, In s rest -> cs_id s <> id) -> remaining = rest)
      /\ (currentSessionId app = Some id ->
          currentSessionId (live w') = option_map cs_id (hd_error remaining))
      /\ (currentSessionId app = Some id ->
          forall first rest,
            sessions app = first :: rest -> cs_id first <> id ->
            currentSessionId (live w') = Some (cs_id first))
      /\ (currentSessionId app = Some id -> remaining = [] ->
          currentSessionId (live w') = None)
      /\ (currentSessionId app <> Some id ->
          currentSessionId (live w') = currentSessionId (live w))).
Proof.
  intros Huser. split.
  - unfold App.createNewChat. rewrite Huser.
    do 2 eexists. split; [reflexivity |]. cbn. auto.
  - unfold App.handleDeleteChat.
    set (remaining := filter _ (sessions app)).
    assert (Hin : forall s, In s remaining <-> In s (sessions app) /\ cs_id s <> id).
    { intros s. unfold remaining. rewrite filter_In, negb_true_iff.
      now rewrite String.eqb_neq. }
    assert (Hhead : forall first rest,
               sessions app = first :: rest -> cs_id first = id ->
               (forall s, In s rest -> cs_id s <> id) -> remaining = rest).
    { intros first rest Hl Hid Hrest. unfold remaining. rewrite Hl. cbn.
      rewrite <- Hid, String.eqb_refl. cbn. rewrite Hid.
      apply forallb_filter_id, forallb_forall. intros s Hs.
      apply negb_true_iff, String.eqb_neq. auto. }
    assert (Hearlier : forall first rest,
               sessions app = first :: rest -> cs_id first <> id ->
               hd_error remaining = Some first).
    { intros first rest Hl Hid. unfold remaining. rewrite Hl. cbn.
      now replace (cs_id first =? id) with false
        by (symmetry; now apply String.eqb_neq). }
    destruct (currentSessionId app) as [current |] eqn:Hcur; cbn.
    + destruct (String.eqb_spec id current) as [-> | Hne].
      * eexists. split; [reflexivity |]. cbn.
        split; [reflexivity |]. split; [exact Hin |]. split; [exact Hhead |].
        split; [intros _; now destruct remaining |].
        split; [| split; [| congruence]].
        -- intros _ first rest Hl Hid.
           pose proof (Hearlier first rest Hl Hid) as Hfirst.
           destruct remaining as [| s l]; [discriminate Hfirst |].
           cbn in Hfirst. now injection Hfirst as ->.
        -- now intros _ ->.
      * eexists. split; [reflexivity |]. cbn.
        repeat split; try apply Hin; auto; congruence.
    + eexists. split; [reflexivity |]. cbn.
      repeat split; try apply Hin; auto; congruence.
Qed.

End StoreClaims.

(** ** The claims at concrete inputs *)

Section Runs.

Import Examples.

(** C1 fails on the send flow. A session is current and holds four
    messages; the user sends "And the tail?". The one request that reaches
    the service is made on a chat whose history is the built history of the
    four messages followed by a turn for the new message, and the message
    sent on that chat is the new message once more: it is transmitted
    twice, and the history is not the list as it stood before the append. *)
Theorem send_repeats_new_message_in_history :
  let w := snd (App.handleSendMessage clock (answering "Long.") chatting
                  "And the tail?" [] (start chatting)) in
  let sent := {| role := user; parts := [TextPart "And the tail?"] |} in
  requests w
  = [SendMessage
       {| chat_model := "gemini-2.5-flash";
          chat_history :=
            GeminiService.chatHistory (cs_messages kites) ++ [sent];
          chat_sent := [] |}
       (parts sent)]
  /\ (GeminiService.chatHistory (cs_messages kites) ++ [sent])%list
     <> GeminiService.chatHistory (cs_messages kites).
Proof.
  split; [reflexivity |].
  intros H. apply (f_equal (@List.length Content)) in H. discriminate H.
Qed.

(** C2 fails when no session is selected. After login the user sends "hi"
    and the service rejects the call: the handler returns normally and the
    loading state goes [THINKING], [ERROR], [IDLE], but the session made for
    the send holds the user message only: [handleError] looks for the
    [currentSessionId] of the closure, which is still [null], so no apology
    is appended anywhere. *)
Theorem failed_first_send_appends_no_apology :
  let sent := App.handleSendMessage clock rejecting fresh "hi" [] (start fresh) in
  fst sent = Ok tt
  /\ loadingTrace (snd sent) = [THINKING; ERROR; IDLE]
  /\ sessions (live (snd sent))
     = [{| cs_id := "chat_1700000000000";
           cs_title := "hi";
           cs_messages :=
             [App.userMessage "hi" [] 1700000000002 1700000000003];
           cs_createdAt := 1700000000001 |}]
  /\ List.length (flat_map cs_messages (sessions (live (snd sent)))) = 1%nat.
Proof. repeat split. Qed.

(** C4 as stated fails: a session is current and the loading state is
    [IDLE]; [handleSendMessage] with empty text and no attachments sends
    nothing, but the loading state does not remain [IDLE]: it is set to
    [THINKING] and to [ERROR] before it is [IDLE] again. *)
Lemma empty_send_passes_through_thinking_and_error :
  let w := snd (App.handleSendMessage clock (answering "ok") chatting "" []
                  (start chatting)) in
  loadingState chatting = IDLE
  /\ requests w = []
  /\ loadingTrace w = [THINKING; ERROR; IDLE].
Proof. repeat split. Qed.

(** C9 as stated fails: of three sessions the second one is current and
    is deleted. The session that becomes current is the first of the list,
    which came before the deleted one, not the session that followed it. *)
Lemma delete_selects_the_first_session_not_the_next :
  let w := snd (App.handleDeleteChat MoreExamples.browsing "chat_5"
                  (start MoreExamples.browsing)) in
  map cs_id (sessions MoreExamples.browsing) = ["chat_9"; "chat_5"; "chat_3"]
  /\ currentSessionId MoreExamples.browsing = Some "chat_5"
  /\ map cs_id (sessions (live w)) = ["chat_9"; "chat_3"]
  /\ currentSessionId (live w) = Some "chat_9"
  /\ currentSessionId (live w) <> Some "chat_3".
Proof. repeat split. discriminate. Qed.

End Runs.

Section Witnesses.

Import Examples.

(** C3 where the image backend answers with an empty list of images, in a
    send and in an edit of the third message. *)
Lemma image_failure_is_absorbed_witness :
  (exists w2,
      App.handleSendMessage clock
        (askingTool "generate_image" (Some {| generatedImages := Some [] |}))
        chatting "Draw a red kite" [] (start chatting) = (Ok tt, w2)
      /\ loadingTrace w2 = [THINKING; IDLE]
      /\ loadingState (live w2) = IDLE)
  /\ (exists w2,
        App.handleEditMessage clock
          (askingTool "generate_image" (Some {| generatedImages := Some [] |}))
          chatting "msg_20_u" "Draw a red kite" (start chatting) = (Ok tt, w2)
        /\ loadingTrace w2 = [THINKING; IDLE]
        /\ loadingState (live w2) = IDLE).
Proof.
  split.
  - destruct (@image_failure_is_absorbed clock
                (askingTool "generate_image" (Some {| generatedImages := Some [] |}))
                (App.contextMessages chatting "chat_9"
                   (App.userMessage "Draw a red kite" [] (clock 0) (clock 1)))
                "Draw a red kite" [] [] (toolReply "generate_image") _ [] _
                ltac:(discriminate) eq_refl eq_refl eq_refl eq_refl
                (or_intror (ex_intro _ _ (conj eq_refl eq_refl))))
      as (apologyText & _ & _ & _ & Hsend & _).
    destruct (Hsend chatting (start chatting) _ _ _ eq_refl eq_refl eq_refl)
      as (w2 & Hrun & Htrace & Hstate & _).
    exists w2. auto.
  - destruct (@image_failure_is_absorbed clock
                (askingTool "generate_image" (Some {| generatedImages := Some [] |}))
                [question; reply]
                "Draw a red kite" [] [] (toolReply "generate_image") _ [] _
                ltac:(discriminate) eq_refl eq_refl eq_refl eq_refl
                (or_intror (ex_intro _ _ (conj eq_refl eq_refl))))
      as (apologyText & _ & _ & _ & _ & Hedit).
    destruct (Hedit chatting (start chatting) "msg_20_u" _ eq_refl eq_refl)
      as (sid & w2 & _ & Hrun & Htrace & Hstate & _).
    exists w2. auto.
Defined.

(** C5 on the third message of a session of four. *)
Lemma edit_replaces_and_truncates_witness :
  exists w1 session',
    App.handleEditMessage_begin clock chatting "msg_20_u" "Which shape?"
                                (start chatting)
    = (Ok (Some ([question; reply], [])), w1)
    /\ find (fun s => cs_id s =? "chat_9") (sessions (live w1)) = Some session'
    /\ List.length (cs_messages session') = 3%nat.
Proof.
  assert (Hfirst : forall j m', (j < 2)%nat ->
                     nth_error (cs_messages kites) j = Some m' ->
                     msg_id m' <> msg_id followUp).
  { intros [| [| j]] m' Hj Hm; cbn in Hm;
      [injection Hm as <-; discriminate
      | injection Hm as <-; discriminate
      | lia]. }
  destruct (@edit_replaces_and_truncates clock (answering "Round.")
              chatting (start chatting)
              "chat_9" kites 2 followUp "Which shape?"
              eq_refl eq_refl eq_refl eq_refl eq_refl Hfirst)
    as (w1 & session' & edited & Hrun & Hfind & Hlen & _).
  exists w1, session'. auto.
Defined.

(** C6 while a turn is in flight. *)
Lemma send_while_loading_is_a_noop_witness :
  ChatWindow.handleSend clock (answering "ok") thinking "hello" [photo]
                        (start thinking)
  = (Ok ("hello", [photo]), start thinking).
Proof.
  apply (@send_while_loading_is_a_noop clock (answering "ok") thinking
           "hello" [photo] (start thinking)).
  discriminate.
Defined.

(** C9, as amended, on two sessions, the first one current. *)
Lemma create_and_delete_session_witness :
  (exists created w',
      App.createNewChat clock chatting (start chatting) = (Ok tt, w')
      /\ sessions (live w') = [created; kites; older]
      /\ currentSessionId (live w') = Some (cs_id created))
  /\ (exists w',
      App.handleDeleteChat chatting "chat_9" (start chatting) = (Ok tt, w')
      /\ sessions (live w') = [older]
      /\ currentSessionId (live w') = Some "chat_3").
Proof.
  destruct (@create_and_delete_session clock chatting (start chatting)
              guest "chat_9" eq_refl)
    as [(created & w' & Hrun & Hlist & _ & Hcur)
        (w'' & Hdel & Hrem & _ & _ & Hsel & _)].
  split.
  - exists created, w'. auto.
  - exists w''. split; [exact Hdel | split; [exact Hrem | now apply Hsel]].
Defined.

End Witnesses.

(** * Further properties *)

(** ** [cleanBase64] *)

Lemma stripPrefix_app (p s : string) : JS.stripPrefix p (p ++ s) = Some s.
Proof.
  induction p as [| a p IH]; cbn; [reflexivity |].
  now rewrite Ascii.eqb_refl.
Qed.

Lemma stripPrefix_some (p s r : string) :
  JS.stripPrefix p s = Some r -> s = p ++ r.
Proof.
  revert s. induction p as [| a p IH]; intros s H; cbn in *.
  - congruence.
  - destruct s as [| b s]; [discriminate |].
    destruct (Ascii.eqb_spec a b) as [-> | _]; [| discriminate].
    cbn. f_equal. now apply IH.
Qed.

Lemma stripPrefix_head (a b : ascii) (p s : string) :
  JS.stripPrefix (String a p) (String b s)
  = if Ascii.eqb a b then JS.stripPrefix p s else None.
Proof. reflexivity. Qed.

Lemma noLineTerminator_app (s t : string) :
  JS.noLineTerminator (s ++ t)
  = JS.noLineTerminator s && JS.noLineTerminator t.
Proof.
  induction s as [| c s IH]; cbn; [reflexivity |].
  now rewrite IH, andb_assoc.
Qed.

Lemma lastPayload_skip (c : ascii) (s : string) :
  c <> ";"%char ->
  GeminiService.lastPayload (String c s) = GeminiService.lastPayload s.
Proof.
  intros Hc. cbn [GeminiService.lastPayload].
  destruct (GeminiService.lastPayload s); [reflexivity |].
  change ";base64," with (String ";" "base64,"). rewrite stripPrefix_head.
  destruct (Ascii.eqb_spec ";"%char c); [congruence | reflexivity].
Qed.

Lemma lastPayload_no_semicolon (s : string) :
  JS.hasChar ";" s = false -> GeminiService.lastPayload s = None.
Proof.
  induction s as [| c s IH]; [reflexivity |].
  cbn [JS.hasChar]. intros H. apply orb_false_iff in H as [Hc Hs].
  rewrite lastPayload_skip; [auto |].
  intros ->. discriminate Hc.
Qed.

Lemma lastPayload_marker (payload : string) :
  payload <> "" ->
  JS.hasChar ";" payload = false ->
  GeminiService.lastPayload (";base64," ++ payload) = Some payload.
Proof.
  intros Hne Hsemi.
  change (";base64," ++ payload) with (String ";" ("base64," ++ payload)).
  cbn [GeminiService.lastPayload].
  replace (GeminiService.lastPayload ("base64," ++ payload)) with (@None string).
  2:{ symmetry. cbn [append].
      do 7 (rewrite lastPayload_skip by discriminate).
      now apply lastPayload_no_semicolon. }
  change (String ";" ("base64," ++ payload)) with (";base64," ++ payload).
  rewrite stripPrefix_app.
  now replace (JS.truthy payload) with true by (symmetry; now apply truthy_true).
Qed.

Lemma lastPayload_built (before payload : string) :
  payload <> "" ->
  JS.hasChar ";" payload = false ->
  GeminiService.lastPayload (before ++ ";base64," ++ payload) = Some payload.
Proof.
  intros Hne Hsemi. induction before as [| c before IH].
  - now apply lastPayload_marker.
  - change (String c before ++ ";base64," ++ payload)
      with (String c (before ++ ";base64," ++ payload)).
    cbn [GeminiService.lastPayload]. now rewrite IH.
Qed.

(** A data URI built from a MIME type and a payload of base64 characters
    is cut back to the payload. *)
Lemma cleanBase64_built (mime payload : string) :
  mime <> "" ->
  JS.noLineTerminator mime = true ->
  payload <> "" ->
  JS.noLineTerminator payload = true ->
  JS.hasChar ";" payload = false ->
  GeminiService.cleanBase64 ("data:" ++ mime ++ ";base64," ++ payload) = payload.
Proof.
  intros Hmime Hline Hne Hline' Hsemi.
  unfold GeminiService.cleanBase64. rewrite stripPrefix_app.
  destruct mime as [| c mime]; [congruence |].
  change (String c mime ++ ";base64," ++ payload)
    with (String c (mime ++ ";base64," ++ payload)).
  cbv iota beta.
  replace (JS.noLineTerminator (String c (mime ++ ";base64," ++ payload)))
    with true.
  2:{ symmetry.
      change (String c (mime ++ ";base64," ++ payload))
        with (String c mime ++ ";base64," ++ payload).
      now rewrite !noLineTerminator_app, Hline, Hline'. }
  now rewrite lastPayload_built.
Qed.

Lemma lastPayload_suffix (s p : string) :
  GeminiService.lastPayload s = Some p -> exists before, s = before ++ p.
Proof.
  revert p. induction s as [| c s IH]; intros p H; [discriminate |].
  cbn [GeminiService.lastPayload] in H.
  destruct (GeminiService.lastPayload s) as [q |] eqn:E.
  - injection H as ->. destruct (IH p eq_refl) as (before & ->).
    now exists (String c before).
  - destruct (JS.stripPrefix ";base64," (String c s)) as [q |] eqn:Es;
      [| discriminate].
    destruct (JS.truthy q); [| discriminate]. injection H as ->.
    exists ";base64,". now apply stripPrefix_some.
Qed.

Lemma lastPayload_none_tail (before s : string) :
  GeminiService.lastPayload (before ++ s) = None ->
  GeminiService.lastPayload s = None.
Proof.
  induction before as [| c before IH]; [auto |].
  change (String c before ++ s) with (String c (before ++ s)).
  cbn [GeminiService.lastPayload].
  destruct (GeminiService.lastPayload (before ++ s)); [discriminate | auto].
Qed.

Lemma lastPayload_is_last (s p : string) :
  GeminiService.lastPayload s = Some p -> GeminiService.lastPayload p = None.
Proof.
  revert p. induction s as [| c s IH]; intros p H; [discriminate |].
  cbn [GeminiService.lastPayload] in H.
  destruct (GeminiService.lastPayload s) as [q |] eqn:E.
  - injection H as ->. now apply IH.
  - destruct (JS.stripPrefix ";base64," (String c s)) as [q |] eqn:Es;
      [| discriminate].
    destruct (JS.truthy q); [| discriminate]. injection H as ->.
    apply stripPrefix_some in Es. injection Es as _ Es.
    rewrite Es in E. now apply (lastPayload_none_tail "base64,").
Qed.

Lemma cleanBase64_cases (dataUrl : string) :
  GeminiService.cleanBase64 dataUrl = dataUrl
  \/ exists rest payload,
      GeminiService.lastPayload rest = Some payload
      /\ GeminiService.cleanBase64 dataUrl = payload.
Proof.
  unfold GeminiService.cleanBase64.
  destruct (JS.stripPrefix "data:" dataUrl) as [[| c rest] |]; auto.
  destruct (JS.noLineTerminator (String c rest)); auto.
  destruct (GeminiService.lastPayload rest) as [payload |] eqn:El; eauto.
Qed.

Lemma cleanBase64_fixed (payload : string) :
  GeminiService.lastPayload payload = None ->
  GeminiService.cleanBase64 payload = payload.
Proof.
  intros Hnone. unfold GeminiService.cleanBase64.
  destruct (JS.stripPrefix "data:" payload) as [[| d rest] |] eqn:Ep;
    try reflexivity.
  destruct (JS.noLineTerminator (String d rest)); [| reflexivity].
  apply stripPrefix_some in Ep. rewrite Ep in Hnone.
  apply (lastPayload_none_tail ("data:" ++ String d "")) in Hnone.
  now rewrite Hnone.
Qed.

Section CleanBase64.

Import GeminiService.

(** X1. The request builder sends an attachment as its declared MIME type
    and the bare payload: for content of the form
    [data:<mime>;base64,<payload>], with a MIME type and a payload that are
    not empty and hold no line terminator, and a payload without [;], the
    part built is the payload alone, whatever the MIME type inside the URI. *)
Theorem attachment_is_sent_as_bare_payload att mime payload :
  att_content att = "data:" ++ mime ++ ";base64," ++ payload ->
  mime <> "" ->
  JS.noLineTerminator mime = true ->
  payload <> "" ->
  JS.noLineTerminator payload = true ->
  JS.hasChar ";" payload = false ->
  inlinePart att = InlineData (att_mimeType att) payload.
Proof.
  intros Hcontent Hmime Hline Hne Hline' Hsemi.
  unfold inlinePart. rewrite Hcontent.
  now rewrite cleanBase64_built.
Qed.

(** X2. [cleanBase64] only cuts a prefix off: its result is always a
    suffix of its argument, so nothing is ever sent that was not in the
    attachment. *)
Theorem cleanBase64_returns_a_suffix dataUrl :
  exists before, dataUrl = before ++ cleanBase64 dataUrl.
Proof.
  unfold cleanBase64.
  destruct (JS.stripPrefix "data:" dataUrl) as [[| c rest] |] eqn:E;
    try (now exists "").
  destruct (JS.noLineTerminator (String c rest)); [| now exists ""].
  destruct (lastPayload rest) as [payload |] eqn:El; [| now exists ""].
  apply stripPrefix_some in E.
  destruct (lastPayload_suffix _ El) as (before & ->).
  exists ("data:" ++ String c before). rewrite E. reflexivity.
Qed.

(** X3. [cleanBase64] is idempotent: a payload that was already stripped is
    left as it is when it goes through the builder again. *)
Theorem cleanBase64_idempotent dataUrl :
  cleanBase64 (cleanBase64 dataUrl) = cleanBase64 dataUrl.
Proof.
  destruct (cleanBase64_cases dataUrl) as [Hsame | (rest & payload & Hlast & Hcut)].
  - rewrite Hsame. exact Hsame.
  - rewrite Hcut. apply cleanBase64_fixed. now apply lastPayload_is_last in Hlast.
Qed.

End CleanBase64.

(** ** The resolver, further *)

Section ResolverMore.

Import GeminiService.
Variable remote : Remote.

Lemma withCall_calls c f : calls (withCall c f) = (calls f ++ [c])%list.
Proof. reflexivity. Qed.

(** The inner [try] block when the image backend returns an image. *)
Lemma generateAndReport_image chat call prompt f answer first more img :
  remote_generateImages remote (calls f) prompt = Some answer ->
  generatedImages answer = Some (first :: more) ->
  gi_image first = Some img ->
  let f1 := withAttachment (generatedImage (imageBytes img))
              (withCall (imageRequest prompt) f) in
  generateAndReport remote chat call prompt f
  = match remote_sendMessage remote (calls f ++ [imageRequest prompt]) chat
            (toolResult call) with
    | Some reply =>
        (Ok tt, withText (JS.orElse (resp_text reply) imageConfirmation)
                  (withCall (SendMessage chat (toolResult call)) f1))
    | None =>
        (Throw RemoteRejected, withCall (SendMessage chat (toolResult call)) f1)
    end.
Proof.
  intros Himg Hlist Hfirst f1. unfold generateAndReport.
  erewrite bind_ok by (apply generateImages_answer; exact Himg).
  rewrite Hlist, Hfirst.
  erewrite bind_ok by reflexivity.
  erewrite bind_ok by reflexivity.
  fold f1. change [FunctionResponse "generate_image" (fc_id call)
                     "Image generated successfully."] with (toolResult call).
  destruct (remote_sendMessage remote (calls f ++ [imageRequest prompt]) chat
              (toolResult call)) as [reply |] eqn:Hreply.
  - erewrite bind_ok by (apply chat_sendMessage_answer; exact Hreply).
    reflexivity.
  - erewrite bind_throw by (apply chat_sendMessage_reject; exact Hreply).
    reflexivity.
Qed.

(** What the inner [try] block adds to the log, however it ends. *)
Lemma generateAndReport_log chat call prompt f :
  let f2 := snd (generateAndReport remote chat call prompt f) in
  calls f2 = (calls f ++ [imageRequest prompt])%list
  \/ calls f2 = (calls f ++ [imageRequest prompt;
                             SendMessage chat (toolResult call)])%list.
Proof.
  cbn zeta.
  destruct (remote_generateImages remote (calls f) prompt) as [answer |] eqn:Himg.
  2:{ left. unfold generateAndReport.
      erewrite bind_throw by (apply generateImages_reject; exact Himg).
      reflexivity. }
  destruct (generatedImages answer) as [[| first more] |] eqn:Hlist.
  1,3: left; unfold generateAndReport;
       erewrite bind_ok by (apply generateImages_answer; exact Himg);
       rewrite Hlist; reflexivity.
  destruct (gi_image first) as [img |] eqn:Hfirst.
  - right. rewrite (generateAndReport_image chat call _ _ Himg Hlist Hfirst).
    destruct (remote_sendMessage _ _ _ _); cbn; now rewrite <- app_assoc.
  - left. unfold generateAndReport.
    erewrite bind_ok by (apply generateImages_answer; exact Himg).
    rewrite Hlist, Hfirst. reflexivity.
Qed.

Lemma handleFunctionCalls_log chat functionCalls f :
  let f2 := snd (handleFunctionCalls remote chat functionCalls f) in
  calls f2 = calls f
  \/ exists call prompt,
      calls f2 = (calls f ++ [imageRequest prompt])%list
      \/ calls f2 = (calls f ++ [imageRequest prompt;
                                 SendMessage chat (toolResult call)])%list.
Proof.
  cbn zeta. unfold handleFunctionCalls.
  destruct functionCalls as [[| call rest] |]; auto.
  destruct (fc_name call) as [name |]; auto.
  destruct (name =? "generate_image"); auto.
  destruct (fc_args call) as [args |]; auto.
  erewrite bind_ok by reflexivity.
  set (prompt := option_map snd _).
  right. exists call, prompt.
  pose proof (generateAndReport_log chat call prompt f) as Hlog. cbn zeta in Hlog.
  unfold try_catch.
  destruct (generateAndReport remote chat call prompt f) as [[[] | e] f2];
    exact Hlog.
Qed.

(** With something to send, the log grows by the message and at most two
    requests after it. *)
Lemma requests_log history newMessage newAttachments f :
  currentParts newMessage newAttachments <> [] ->
  exists later,
    calls (snd (sendMessageToGemini remote history newMessage newAttachments f))
    = (calls f ++ SendMessage (chatFor history)
                    (currentParts newMessage newAttachments) :: later)%list
    /\ (List.length later <= 2)%nat.
Proof.
  intros Hne.
  destruct (remote_sendMessage remote (calls f) (chatFor history)
              (currentParts newMessage newAttachments)) as [r |] eqn:Hr.
  2:{ exists []. rewrite (sendMessageToGemini_rejected _ _ _ _ _ Hne Hr).
      split; [reflexivity | cbn; lia]. }
  unfold sendMessageToGemini, try_catch.
  rewrite (sendMessageToGemini_try_answered _ _ _ _ _ Hne Hr).
  set (request := SendMessage _ _).
  set (f1 := withLocals (JS.orElse (resp_text r) "") [] (withCall request f)).
  pose proof (handleFunctionCalls_log
                (afterMessage (chatFor history)
                   (currentParts newMessage newAttachments))
                (resp_functionCalls r) f1) as Hlog.
  cbn zeta in Hlog. unfold bind.
  destruct (handleFunctionCalls remote _ (resp_functionCalls r) f1)
    as [[[] | e] f2]; cbn [snd] in Hlog.
  - rewrite fallbackAndReturn_run.
    destruct (isBlank f2); cbn [snd calls withText];
      destruct Hlog as [Hlog | (call & prompt & [Hlog | Hlog])];
      rewrite Hlog; cbn [calls f1 withLocals withCall];
      rewrite <- ?app_assoc; eexists; (split; [reflexivity | cbn; lia]).
  - unfold throw. cbn [snd].
    destruct Hlog as [Hlog | (call & prompt & [Hlog | Hlog])];
      rewrite Hlog; cbn [calls f1 withLocals withCall];
      rewrite <- ?app_assoc; eexists; (split; [reflexivity | cbn; lia]).
Qed.

End ResolverMore.

Section ResolverExtras.

Import GeminiService.
Variable remote : Remote.

(** X4. When the model asks for an image and the image backend returns
    one, the outcome carries exactly one attachment, the first generated
    image as a JPEG data URI, whatever the tool-result turn does: its text
    is the model's closing reply, the canned confirmation when that reply has
    no text, or the image apology when the tool-result turn is rejected (the
    image is then kept all the same). Three requests are made: the message,
    the image request, the tool result on the same chat. *)
Theorem generated_image_is_attached history newMessage newAttachments f r
        call rest args answer first more img :
  currentParts newMessage newAttachments <> [] ->
  let message := currentParts newMessage newAttachments in
  let request := SendMessage (chatFor history) message in
  remote_sendMessage remote (calls f) (chatFor history) message = Some r ->
  resp_functionCalls r = Some (call :: rest) ->
  fc_name call = Some "generate_image" ->
  fc_args call = Some args ->
  let prompt := option_map snd (find (fun kv => fst kv =? "prompt") args) in
  remote_generateImages remote (calls f ++ [request]) prompt = Some answer ->
  generatedImages answer = Some (first :: more) ->
  gi_image first = Some img ->
  let chat := afterMessage (chatFor history) message in
  let closing :=
    match remote_sendMessage remote (calls f ++ [request; imageRequest prompt])
            chat (toolResult call) with
    | Some reply => JS.orElse (resp_text reply) imageConfirmation
    | None => imageError
    end in
  exists f',
    sendMessageToGemini remote history newMessage newAttachments f
    = (Ok {| text := closing;
             attachments := [generatedImage (imageBytes img)] |}, f')
    /\ closing <> ""
    /\ calls f' = (calls f ++ [request; imageRequest prompt;
                               SendMessage chat (toolResult call)])%list.
Proof.
  intros Hne message request Hr Hcalls Hname Hargs prompt Himg Hlist Hfirst
         chat closing.
  set (f1 := withLocals (JS.orElse (resp_text r) "") [] (withCall request f)).
  assert (Hblock :
    handleFunctionCalls remote chat (Some (call :: rest)) f1
    = (Ok tt, withText closing
                (withCall (SendMessage chat (toolResult call))
                   (withAttachment (generatedImage (imageBytes img))
                      (withCall (imageRequest prompt) f1))))).
  { unfold handleFunctionCalls. rewrite Hname, Hargs.
    cbn [String.eqb Ascii.eqb Bool.eqb].
    erewrite bind_ok by reflexivity. fold prompt.
    unfold try_catch.
    rewrite (generateAndReport_image remote chat call prompt f1 Himg Hlist Hfirst).
    cbn [calls f1 withLocals withCall]. unfold closing.
    rewrite <- app_assoc. cbn [app].
    now destruct (remote_sendMessage remote _ chat (toolResult call)). }
  assert (Hclosing : closing <> "").
  { unfold closing.
    destruct (remote_sendMessage remote _ chat (toolResult call)) as [reply |];
      [| discriminate].
    unfold JS.orElse. destruct (resp_text reply) as [t |]; [| discriminate].
    destruct (JS.truthy t) eqn:Et; [now apply truthy_true | discriminate]. }
  eexists. split; [| split; [exact Hclosing |]].
  - unfold sendMessageToGemini. erewrite try_catch_ok; [reflexivity |].
    rewrite (sendMessageToGemini_try_answered _ _ _ _ _ Hne Hr), Hcalls.
    fold message request f1 chat.
    rewrite (bind_ok _ _ _ Hblock), fallbackAndReturn_run.
    unfold isBlank. cbn [generatedAttachments withText withCall withAttachment
                         withLocals f1 List.length app Nat.eqb andb].
    rewrite andb_false_r. reflexivity.
  - cbn. now rewrite <- !app_assoc.
Qed.

(** X5. A "generate_image" call that comes without arguments fails the
    whole turn: reading the prompt faults outside the inner [try], the outer
    [catch] turns it into the generic failure, and no image is requested. *)
Theorem image_call_without_arguments_fails history newMessage newAttachments f r
        call rest :
  currentParts newMessage newAttachments <> [] ->
  let request := SendMessage (chatFor history)
                             (currentParts newMessage newAttachments) in
  remote_sendMessage remote (calls f) (chatFor history)
                     (currentParts newMessage newAttachments) = Some r ->
  resp_functionCalls r = Some (call :: rest) ->
  fc_name call = Some "generate_image" ->
  fc_args call = None ->
  exists f',
    sendMessageToGemini remote history newMessage newAttachments f
    = (Throw FailedToGetResponse, f')
    /\ calls f' = (calls f ++ [request])%list.
Proof.
  intros Hne request Hr Hcalls Hname Hargs.
  eexists. split.
  - unfold sendMessageToGemini. erewrite try_catch_throw; [reflexivity |].
    rewrite (sendMessageToGemini_try_answered _ _ _ _ _ Hne Hr), Hcalls.
    apply bind_throw. unfold handleFunctionCalls. rewrite Hname, Hargs.
    reflexivity.
  - reflexivity.
Qed.

(** X6. Whatever the service answers, one call of [sendMessageToGemini]
    only adds to the log, at most three requests and in this order: the
    message on the chat built from the history, then at most one image
    request, then at most one tool result on the same chat. With an empty
    message nothing is added. *)
Theorem requests_of_one_turn history newMessage newAttachments f :
  let message := currentParts newMessage newAttachments in
  let request := SendMessage (chatFor history) message in
  let f' := snd (sendMessageToGemini remote history newMessage newAttachments f) in
  (message = [] /\ calls f' = calls f)
  \/ (message <> []
      /\ (calls f' = (calls f ++ [request])%list
          \/ exists call prompt,
              calls f' = (calls f ++ [request; imageRequest prompt])%list
              \/ calls f'
                 = (calls f ++ [request; imageRequest prompt;
                                SendMessage (afterMessage (chatFor history) message)
                                            (toolResult call)])%list)).
Proof.
  intros message request. cbn zeta.
  assert (Hcase : message = [] \/ message <> [])
    by (destruct message; [left | right]; congruence).
  destruct Hcase as [Hnil | Hne].
  { left. split; [exact Hnil |].
    apply currentParts_nil in Hnil as [-> ->]. reflexivity. }
  right. split; [exact Hne |].
  destruct (remote_sendMessage remote (calls f) (chatFor history) message)
    as [r |] eqn:Hr.
  2:{ left. now rewrite (sendMessageToGemini_rejected _ _ _ _ _ Hne Hr). }
  unfold sendMessageToGemini, try_catch.
  rewrite (sendMessageToGemini_try_answered _ _ _ _ _ Hne Hr).
  fold message request.
  set (f1 := withLocals (JS.orElse (resp_text r) "") [] (withCall request f)).
  pose proof (handleFunctionCalls_log remote
                (afterMessage (chatFor history) message)
                (resp_functionCalls r) f1) as Hlog.
  cbn zeta in Hlog. unfold bind.
  destruct (handleFunctionCalls remote _ (resp_functionCalls r) f1)
    as [[[] | e] f2]; cbn [snd] in Hlog.
  - rewrite fallbackAndReturn_run.
    destruct (isBlank f2); cbn [snd calls withText];
      (destruct Hlog as [Hlog | (call & prompt & [Hlog | Hlog])];
       [left | right; exists call, prompt; left
        | right; exists call, prompt; right]);
      rewrite Hlog; cbn; now rewrite <- ?app_assoc.
  - unfold throw. cbn [snd].
    (destruct Hlog as [Hlog | (call & prompt & [Hlog | Hlog])];
     [left | right; exists call, prompt; left
      | right; exists call, prompt; right]);
      rewrite Hlog; cbn; now rewrite <- ?app_assoc.
Qed.

End ResolverExtras.

Section RoundTrips.

Import GeminiService.

(** X7. A generated image comes back unchanged in later turns: the model
    message that stores the outcome of an image turn is built, as a turn of
    the history, into one inline part with MIME type "image/jpeg" and exactly
    the bytes the image backend returned (base64 text: not empty, no line
    terminator, no [;]), followed by the text part. *)
Theorem generated_image_round_trip bytes reply t stamp :
  bytes <> "" ->
  JS.noLineTerminator bytes = true ->
  JS.hasChar ";" bytes = false ->
  historyTurn
    (App.botMessage {| text := reply;
                       attachments := [generatedImage (Some bytes)] |} t stamp)
  = {| role := model;
       parts := InlineData "image/jpeg" bytes :: textParts reply |}.
Proof.
  intros Hne Hline Hsemi. unfold historyTurn, App.botMessage, inlinePart.
  cbn [msg_attachments msg_role msg_content text attachments List.length
       Nat.ltb Nat.leb map generatedImage att_mimeType att_content app].
  change ("data:image/jpeg;base64," ++ bytes)
    with ("data:" ++ "image/jpeg" ++ ";base64," ++ bytes).
  rewrite cleanBase64_built by (assumption || discriminate || reflexivity).
  reflexivity.
Qed.

(** X8. [generateSpeech] never returns an empty recording: when it
    returns, the result is "data:audio/wav;base64," followed by the non-empty
    data of the first part of the first candidate; when a candidate, its
    content, its parts, the inline data or the data is missing or empty, it
    fails with "no audio data". A returned URI is cut back to the data by
    [cleanBase64] (for base64 data). *)
Theorem generateSpeech_returns_audio generateContent content :
  match generateSpeech generateContent content with
  | inr url =>
      exists response data,
        generateContent content = Some response
        /\ firstAudio response = Some data
        /\ data <> ""
        /\ url = "data:audio/wav;base64," ++ data
        /\ (JS.noLineTerminator data = true -> JS.hasChar ";" data = false ->
            cleanBase64 url = data)
  | inl NoAudioData =>
      exists response,
        generateContent content = Some response
        /\ (firstAudio response = None \/ firstAudio response = Some "")
  | inl SpeechRejected => generateContent content = None
  end.
Proof.
  unfold generateSpeech.
  destruct (generateContent content) as [response |]; [| reflexivity].
  destruct (firstAudio response) as [data |] eqn:Haudio; [| eauto].
  destruct (JS.truthy data) eqn:Hdata.
  - apply truthy_true in Hdata. exists response, data.
    repeat (split; [auto; fail |]).
    intros Hline Hsemi.
    change ("data:audio/wav;base64," ++ data)
      with ("data:" ++ "audio/wav" ++ ";base64," ++ data).
    apply cleanBase64_built; (assumption || discriminate || reflexivity).
  - apply truthy_false in Hdata. subst data. eauto.
Qed.

End RoundTrips.

(** ** The send flow, further *)

Section SendFacts.

Import GeminiService.
Variable now : nat -> Z.
Variable remote : Remote.

Lemma handleSendMessage_begin_selected app content atts w sid :
  App.selected (currentSessionId app) = Some sid ->
  let newMessage :=
    App.userMessage content atts (now (ticks w)) (now (S (ticks w))) in
  App.handleSendMessage_begin now app content atts w
  = (Ok (sid, newMessage),
     App.withLoading THINKING
       (App.withSessions (map (App.addUserMessage sid content atts newMessage))
          (App.tick (App.tick w)))).
Proof.
  intros Hsel. unfold App.handleSendMessage_begin. rewrite Hsel. reflexivity.
Qed.

Lemma handleSendMessage_begin_created app content atts w :
  App.selected (currentSessionId app) = None ->
  let created := App.newSession (now (ticks w)) (now (S (ticks w))) in
  let newMessage :=
    App.userMessage content atts (now (S (S (ticks w))))
                    (now (S (S (S (ticks w))))) in
  App.handleSendMessage_begin now app content atts w
  = (Ok (cs_id created, newMessage),
     App.withLoading THINKING
       (App.withSessions
          (map (App.addUserMessage (cs_id created) content atts newMessage))
          (App.tick (App.tick
             (App.withCurrent (Some (cs_id created))
                (App.withSessions (cons created) (App.tick (App.tick w)))))))).
Proof.
  intros Hsel. unfold App.handleSendMessage_begin. rewrite Hsel. reflexivity.
Qed.

Lemma handleSendMessage_unfold app content atts w sid newMessage w1 :
  App.handleSendMessage_begin now app content atts w = (Ok (sid, newMessage), w1) ->
  App.handleSendMessage now remote app content atts w
  = App.handleSendMessage_settle now remote app sid newMessage content atts w1.
Proof. intros H. now apply handleSendMessage_split. Qed.

(** The second part of a send, by the way the awaited call settles. *)
Lemma handleSendMessage_settle_run app sid newMessage content atts w1 :
  App.handleSendMessage_settle now remote app sid newMessage content atts w1
  = match sendMessageToGemini remote (App.contextMessages app sid newMessage)
            content atts (enter (requests w1)) with
    | (Ok o, f) =>
        (Ok tt,
         App.withLoading IDLE
           (App.withSessions
              (App.appendMessage (Some sid)
                 (App.botMessage o (now (ticks w1)) (now (S (ticks w1)))))
              (App.tick (App.tick (App.withRequests (calls f) w1)))))
    | (Throw _, f) =>
        (Ok tt,
         App.withLoading IDLE
           (App.withSessions
              (App.appendMessage (currentSessionId app)
                 (App.errorMessage (now (ticks w1)) (now (S (ticks w1)))))
              (App.tick (App.tick
                 (App.withLoading ERROR (App.withRequests (calls f) w1))))))
    end.
Proof.
  unfold App.handleSendMessage_settle.
  destruct (sendMessageToGemini remote _ content atts (enter (requests w1)))
    as [[o | e] f] eqn:Hsend.
  - erewrite try_catch_ok by (apply receiveReply_ok; exact Hsend). reflexivity.
  - erewrite try_catch_throw by (apply receiveReply_throw; exact Hsend).
    rewrite handleError_run. reflexivity.
Qed.

Lemma find_addUserMessage sid content atts newMessage l session :
  find (fun s => cs_id s =? sid) l = Some session ->
  find (fun s => cs_id s =? sid)
       (map (App.addUserMessage sid content atts newMessage) l)
  = Some (App.withMessages (App.newTitle session content atts)
            (cs_messages session ++ [newMessage]) session).
Proof.
  intros Hfind. rewrite find_map_same_id, Hfind.
  2:{ intros s. unfold App.addUserMessage. now destruct (cs_id s =? sid). }
  cbn. unfold App.addUserMessage. now rewrite (find_some_id _ _ Hfind).
Qed.

Lemma find_appendMessage sid m l session :
  find (fun s => cs_id s =? sid) l = Some session ->
  find (fun s => cs_id s =? sid) (App.appendMessage (Some sid) m l)
  = Some (App.withMessages (cs_title session) (cs_messages session ++ [m]) session).
Proof.
  intros Hfind. unfold App.appendMessage. rewrite find_map_same_id, Hfind.
  2:{ intros s. now destruct (JS.eqId (cs_id s) (Some sid)). }
  cbn. now rewrite (find_some_id _ _ Hfind).
Qed.

End SendFacts.

Section SendExtras.

Import GeminiService.
Variable now : nat -> Z.
Variable remote : Remote.

(** X9. A send to the selected session whose service call returns: the
    handler returns normally, the loading state goes [THINKING] then [IDLE],
    and the session ends with its former messages, the user message and one
    model message that carries the outcome's text and attachments; the
    selection does not move. (The history given to the service is the former
    messages followed by the new message.) *)
Theorem successful_send app content atts w sid session o f :
  App.selected (currentSessionId app) = Some sid ->
  sessions (live w) = sessions app ->
  find (fun s => cs_id s =? sid) (sessions app) = Some session ->
  let newMessage :=
    App.userMessage content atts (now (ticks w)) (now (S (ticks w))) in
  sendMessageToGemini remote (cs_messages session ++ [newMessage])
                      content atts (enter (requests w)) = (Ok o, f) ->
  exists w2 session',
    App.handleSendMessage now remote app content atts w = (Ok tt, w2)
    /\ loadingTrace w2 = (loadingTrace w ++ [THINKING; IDLE])%list
    /\ loadingState (live w2) = IDLE
    /\ find (fun s => cs_id s =? sid) (sessions (live w2)) = Some session'
    /\ cs_messages session'
       = (cs_messages session
          ++ [newMessage;
              {| msg_id := "msg_" ++ JS.showZ (now (S (S (ticks w)))) ++ "_b";
                 msg_role := model;
                 msg_content := text o;
                 msg_attachments := Some (attachments o);
                 msg_timestamp := now (S (S (S (ticks w)))) |}])%list
    /\ currentSessionId (live w2) = currentSessionId (live w)
    /\ requests w2 = calls f.
Proof.
  intros Hsel Hlive Hfind newMessage Hsend.
  rewrite (handleSendMessage_unfold now remote _ _ _ _
             (handleSendMessage_begin_selected now app content atts w Hsel)).
  rewrite handleSendMessage_settle_run.
  unfold App.contextMessages. rewrite Hfind. fold newMessage.
  cbn [requests App.withLoading App.withSessions App.tick].
  rewrite Hsend.
  eexists. eexists. split; [reflexivity |].
  cbn [live loadingTrace loadingState sessions currentSessionId requests ticks
       App.withLoading App.withSessions App.tick App.withRequests].
  rewrite Hlive.
  split; [now rewrite <- app_assoc |].
  split; [reflexivity |].
  split.
  { apply find_appendMessage. apply find_addUserMessage. exact Hfind. }
  cbn [cs_messages App.withMessages]. rewrite <- app_assoc.
  split; [reflexivity | split; reflexivity].
Qed.

(** X10. A send to the selected session whose service call fails: the
    handler returns normally, the loading state goes [THINKING], [ERROR],
    [IDLE], and the session ends with its former messages, the user message
    and exactly one model message with the canned apology and no
    attachments. *)
Theorem failed_send_appends_one_apology app content atts w sid session e f :
  App.selected (currentSessionId app) = Some sid ->
  sessions (live w) = sessions app ->
  find (fun s => cs_id s =? sid) (sessions app) = Some session ->
  let newMessage :=
    App.userMessage content atts (now (ticks w)) (now (S (ticks w))) in
  sendMessageToGemini remote (cs_messages session ++ [newMessage])
                      content atts (enter (requests w)) = (Throw e, f) ->
  exists w2 session',
    App.handleSendMessage now remote app content atts w = (Ok tt, w2)
    /\ loadingTrace w2 = (loadingTrace w ++ [THINKING; ERROR; IDLE])%list
    /\ loadingState (live w2) = IDLE
    /\ find (fun s => cs_id s =? sid) (sessions (live w2)) = Some session'
    /\ cs_messages session'
       = (cs_messages session
          ++ [newMessage;
              {| msg_id := "msg_" ++ JS.showZ (now (S (S (ticks w)))) ++ "_err";
                 msg_role := model;
                 msg_content := App.apology;
                 msg_attachments := None;
                 msg_timestamp := now (S (S (S (ticks w)))) |}])%list
    /\ currentSessionId (live w2) = currentSessionId (live w).
Proof.
  intros Hsel Hlive Hfind newMessage Hsend.
  rewrite (handleSendMessage_unfold now remote _ _ _ _
             (handleSendMessage_begin_selected now app content atts w Hsel)).
  rewrite handleSendMessage_settle_run.
  unfold App.contextMessages. rewrite Hfind. fold newMessage.
  cbn [requests App.withLoading App.withSessions App.tick].
  rewrite Hsend, (selected_some _ Hsel).
  eexists. eexists. split; [reflexivity |].
  cbn [live loadingTrace loadingState sessions currentSessionId requests ticks
       App.withLoading App.withSessions App.tick App.withRequests].
  rewrite Hlive.
  split; [now rewrite <- !app_assoc |].
  split; [reflexivity |].
  split.
  { apply find_appendMessage. apply find_addUserMessage. exact Hfind. }
  cbn [cs_messages App.withMessages]. rewrite <- app_assoc.
  split; reflexivity.
Qed.

End SendExtras.

(** ** Sessions under a send *)

Lemma map_id_appendMessage target m l :
  map cs_id (App.appendMessage target m l) = map cs_id l.
Proof.
  unfold App.appendMessage. rewrite map_map. apply map_ext.
  intros s. now destruct (JS.eqId (cs_id s) target).
Qed.

Lemma map_id_addUserMessage sid content atts m l :
  map cs_id (map (App.addUserMessage sid content atts m) l) = map cs_id l.
Proof.
  rewrite map_map. apply map_ext.
  intros s. unfold App.addUserMessage. now destruct (cs_id s =? sid).
Qed.

Lemma nth_appendMessage target m l i s :
  nth_error l i = Some s ->
  nth_error (App.appendMessage target m l) i
  = Some (if JS.eqId (cs_id s) target
          then App.withMessages (cs_title s) (cs_messages s ++ [m]) s
          else s).
Proof.
  intros H. unfold App.appendMessage. now rewrite nth_error_map, H.
Qed.

Lemma nth_addUserMessage sid content atts m l i s :
  nth_error l i = Some s ->
  nth_error (map (App.addUserMessage sid content atts m) l) i
  = Some (App.addUserMessage sid content atts m s).
Proof. intros H. now rewrite nth_error_map, H. Qed.

(** Both updaters of a send only add messages at the end of a session, and
    leave a session alone when neither names its id. *)
Lemma send_updaters_extend target sid content atts m1 m2 l i s :
  nth_error l i = Some s ->
  exists s' added,
    nth_error (App.appendMessage target m2
                 (map (App.addUserMessage sid content atts m1) l)) i = Some s'
    /\ cs_id s' = cs_id s
    /\ cs_createdAt s' = cs_createdAt s
    /\ cs_messages s' = (cs_messages s ++ added)%list
    /\ (List.length added <= 2)%nat
    /\ ((cs_id s =? sid) = false -> JS.eqId (cs_id s) target = false -> s' = s).
Proof.
  intros H.
  rewrite (nth_appendMessage _ _ _ _ (nth_addUserMessage sid content atts m1 _ _ H)).
  unfold App.addUserMessage.
  destruct (cs_id s =? sid) eqn:E1; cbn [cs_id App.withMessages];
    destruct (JS.eqId (cs_id s) target) eqn:E2;
    cbn [cs_id cs_messages cs_createdAt App.withMessages].
  - do 2 eexists. split; [reflexivity |]. rewrite <- app_assoc.
    repeat (split; [reflexivity || (cbn; lia) |]). discriminate.
  - do 2 eexists. split; [reflexivity |].
    repeat (split; [reflexivity || (cbn; lia) |]). discriminate.
  - do 2 eexists. split; [reflexivity |].
    repeat (split; [reflexivity || (cbn; lia) |]). discriminate.
  - exists s, []. rewrite app_nil_r. cbn. repeat split; auto.
Qed.

Section SendInvariants.

Import GeminiService.
Variable now : nat -> Z.
Variable remote : Remote.

(** X11. [handleSendMessage] always returns, without a fault, and never
    leaves the loading state stuck: whatever the state, the input and the
    service do, it ends [IDLE] after [THINKING; IDLE] or
    [THINKING; ERROR; IDLE], and the ids of the sessions are the former ones,
    in order, with at most one new id in front. *)
Theorem send_always_ends_idle app content atts w :
  exists w2,
    App.handleSendMessage now remote app content atts w = (Ok tt, w2)
    /\ loadingState (live w2) = IDLE
    /\ (loadingTrace w2 = (loadingTrace w ++ [THINKING; IDLE])%list
        \/ loadingTrace w2 = (loadingTrace w ++ [THINKING; ERROR; IDLE])%list)
    /\ (map cs_id (sessions (live w2)) = map cs_id (sessions (live w))
        \/ exists created,
            App.selected (currentSessionId app) = None
            /\ map cs_id (sessions (live w2))
               = created :: map cs_id (sessions (live w))).
Proof.
  destruct (App.selected (currentSessionId app)) as [sid |] eqn:Hsel.
  - rewrite (handleSendMessage_unfold now remote _ _ _ _
               (handleSendMessage_begin_selected now app content atts w Hsel)).
    rewrite handleSendMessage_settle_run.
    destruct (sendMessageToGemini remote _ content atts _) as [[o | e] f];
      eexists; (split; [reflexivity |]);
      cbn [live loadingTrace loadingState sessions App.withLoading
           App.withSessions App.tick App.withRequests];
      rewrite map_id_appendMessage, map_id_addUserMessage, <- !app_assoc;
      (split; [reflexivity |]);
      (split; [first [left; reflexivity | right; reflexivity] |]);
      left; reflexivity.
  - rewrite (handleSendMessage_unfold now remote _ _ _ _
               (handleSendMessage_begin_created now app content atts w Hsel)).
    rewrite handleSendMessage_settle_run.
    destruct (sendMessageToGemini remote _ content atts _) as [[o | e] f];
      eexists; (split; [reflexivity |]);
      cbn [live loadingTrace loadingState sessions App.withLoading
           App.withSessions App.tick App.withRequests App.withCurrent];
      rewrite map_id_appendMessage, map_id_addUserMessage, <- !app_assoc;
      (split; [reflexivity |]);
      (split; [first [left; reflexivity | right; reflexivity] |]);
      right; eexists; split; reflexivity.
Qed.

(** X12. A send is append-only on the session list: every session that
    was there keeps its place (one further down when the send made a new
    session), its id and its creation time, and its messages are the former
    ones followed by at most two new ones; with a session selected, the
    sessions with another id are not changed at all. *)
Theorem send_is_append_only app content atts w i s :
  nth_error (sessions (live w)) i = Some s ->
  let w2 := snd (App.handleSendMessage now remote app content atts w) in
  let offset := match App.selected (currentSessionId app) with
                | Some _ => 0%nat
                | None => 1%nat
                end in
  exists s' added,
    nth_error (sessions (live w2)) (offset + i) = Some s'
    /\ cs_id s' = cs_id s
    /\ cs_createdAt s' = cs_createdAt s
    /\ cs_messages s' = (cs_messages s ++ added)%list
    /\ (List.length added <= 2)%nat
    /\ (forall sid, App.selected (currentSessionId app) = Some sid ->
                    cs_id s <> sid -> s' = s).
Proof.
  intros Hnth. cbn zeta.
  destruct (App.selected (currentSessionId app)) as [sid |] eqn:Hsel.
  - rewrite (handleSendMessage_unfold now remote _ _ _ _
               (handleSendMessage_begin_selected now app content atts w Hsel)).
    rewrite handleSendMessage_settle_run, (selected_some _ Hsel).
    destruct (sendMessageToGemini remote _ content atts _) as [[o | e] f];
      cbn [snd live sessions App.withLoading App.withSessions App.tick
           App.withRequests Nat.add];
      match goal with
      | |- context [App.appendMessage ?t ?m2 (map (App.addUserMessage ?a ?b ?c ?m1) _)] =>
          destruct (send_updaters_extend t a b c m1 m2 _ _ Hnth)
            as (s' & added & H1 & H2 & H3 & H4 & H5 & H6)
      end;
      exists s', added; repeat (split; [assumption |]);
      intros sid' [= <-] Hne; apply H6; cbn; now apply String.eqb_neq.
  - rewrite (handleSendMessage_unfold now remote _ _ _ _
               (handleSendMessage_begin_created now app content atts w Hsel)).
    rewrite handleSendMessage_settle_run.
    assert (Hshift : forall created,
               nth_error (created :: sessions (live w)) (1 + i) = Some s)
      by (intros created; exact Hnth).
    destruct (sendMessageToGemini remote _ content atts _) as [[o | e] f];
      cbn [snd live sessions App.withLoading App.withSessions App.tick
           App.withRequests App.withCurrent];
      match goal with
      | |- context [App.appendMessage ?t ?m2
                      (map (App.addUserMessage ?a ?b ?c ?m1) (?created :: _))] =>
          destruct (send_updaters_extend t a b c m1 m2 _ _ (Hshift created))
            as (s' & added & H1 & H2 & H3 & H4 & H5 & H6)
      end;
      exists s', added; repeat (split; [assumption |]);
      intros sid' [=].
Qed.

End SendInvariants.

(** ** Titles *)

Lemma length_slice0 (n : nat) (s : string) :
  String.length (JS.slice0 n s) = Nat.min n (String.length s).
Proof.
  unfold JS.slice0. revert s. induction n as [| n IH]; intros [| c s]; cbn; auto.
Qed.

Lemma slice0_all (n : nat) (s : string) :
  (String.length s <= n)%nat -> JS.slice0 n s = s.
Proof.
  unfold JS.slice0. revert s. induction n as [| n IH]; intros [| c s] H;
    cbn in *; try reflexivity; [lia |].
  f_equal. apply IH. lia.
Qed.

Lemma length_append (s t : string) :
  String.length (s ++ t) = (String.length s + String.length t)%nat.
Proof. induction s as [| c s IH]; cbn; auto. Qed.

Section Title.

(** X13. The title given with the first message of a session is never
    empty and never longer than 33 characters: a text of at most 30
    characters is the title as it is, a longer one is cut to its first 30
    characters followed by "...", and with no text the title is a fixed
    label that depends on whether there are attachments. *)
Theorem first_message_title session content atts :
  cs_messages session = [] ->
  App.newTitle session content atts <> ""
  /\ (String.length (App.newTitle session content atts) <= 33)%nat
  /\ (content <> "" -> (String.length content <= 30)%nat ->
      App.newTitle session content atts = content)
  /\ ((30 < String.length content)%nat ->
      App.newTitle session content atts = JS.slice0 30 content ++ "...")
  /\ (content = "" ->
      App.newTitle session content atts
      = match atts with [] => "New Conversation" | _ => "Image Analysis" end).
Proof.
  unfold App.newTitle. intros ->. cbn [List.length Nat.eqb].
  destruct (JS.truthy content) eqn:Hc.
  - apply truthy_true in Hc.
    destruct (Nat.ltb_spec 30 (String.length content)) as [Hlong | Hshort].
    + split; [destruct content; [congruence | discriminate] |].
      split; [rewrite length_append, length_slice0;
              change (String.length "...") with 3%nat; lia |].
      split; [intros _ Hle; lia |].
      split; [reflexivity | congruence].
    + rewrite slice0_all by exact Hshort.
      assert (Hsame : content ++ "" = content)
        by (clear; induction content as [| c s IH]; cbn; congruence).
      rewrite Hsame.
      split; [exact Hc |].
      split; [lia |].
      split; [reflexivity |].
      split; [intros Hlong; lia | congruence].
  - apply truthy_false in Hc. subst content.
    split; [destruct atts; discriminate |].
    split; [destruct atts; cbn; lia |].
    split; [congruence |].
    split; [cbn; lia |].
    intros _. now destruct atts.
Qed.

End Title.

(** ** Turns that meet other actions *)

Lemma appendMessage_after_delete sid m l :
  App.appendMessage (Some sid) m (filter (fun s => negb (cs_id s =? sid)) l)
  = filter (fun s => negb (cs_id s =? sid)) l.
Proof.
  unfold App.appendMessage.
  induction l as [| s l IH]; [reflexivity |].
  cbn [filter]. destruct (cs_id s =? sid) eqn:E; cbn [negb]; [exact IH |].
  cbn [map]. rewrite IH. cbn [JS.eqId]. now rewrite E.
Qed.

Lemma find_unused_id sid l :
  (forall s, In s l -> cs_id s <> sid) ->
  find (fun s => cs_id s =? sid) l = None.
Proof.
  induction l as [| s l IH]; intros H; [reflexivity |].
  cbn. replace (cs_id s =? sid) with false
    by (symmetry; apply String.eqb_neq, H; now left).
  apply IH. intros s' Hs'. apply H. now right.
Qed.

Section Interleavings.

Import GeminiService.
Variable now : nat -> Z.
Variable remote : Remote.

(** X14. A send made with no session selected creates its session: when
    the id made from the clock is not in use and the service call returns,
    the session list is the former one with one new session in front, whose
    messages are the user message and the reply, whose title comes from the
    message, and which is now the current session. *)
Theorem first_send_creates_the_session app content atts w o f :
  App.selected (currentSessionId app) = None ->
  sessions (live w) = sessions app ->
  let created := App.newSession (now (ticks w)) (now (S (ticks w))) in
  (forall s, In s (sessions app) -> cs_id s <> cs_id created) ->
  let newMessage :=
    App.userMessage content atts (now (S (S (ticks w))))
                    (now (S (S (S (ticks w))))) in
  sendMessageToGemini remote [newMessage] content atts (enter (requests w))
  = (Ok o, f) ->
  exists w2,
    App.handleSendMessage now remote app content atts w = (Ok tt, w2)
    /\ sessions (live w2)
       = {| cs_id := cs_id created;
            cs_title := App.newTitle created content atts;
            cs_messages :=
              [newMessage;
               App.botMessage o (now (4 + ticks w)) (now (5 + ticks w))];
            cs_createdAt := now (S (ticks w)) |} :: sessions app
    /\ currentSessionId (live w2) = Some (cs_id created)
    /\ loadingTrace w2 = (loadingTrace w ++ [THINKING; IDLE])%list.
Proof.
  intros Hsel Hlive created Hfresh newMessage Hsend.
  assert (Hnone : find (fun s => cs_id s =? cs_id created) (sessions app) = None).
  { now apply find_unused_id. }
  assert (Hkeep : forall m1 m2,
            App.appendMessage (Some (cs_id created)) m2
              (map (App.addUserMessage (cs_id created) content atts m1)
                   (sessions app))
            = sessions app).
  { intros m1 m2. unfold App.appendMessage. rewrite map_map.
    rewrite <- (map_id (sessions app)) at 2. apply map_ext_in.
    intros s Hs. unfold App.addUserMessage.
    replace (cs_id s =? cs_id created) with false
      by (symmetry; apply String.eqb_neq; now apply Hfresh).
    cbn [JS.eqId].
    now replace (cs_id s =? cs_id created) with false
      by (symmetry; apply String.eqb_neq; now apply Hfresh). }
  rewrite (handleSendMessage_unfold now remote _ _ _ _
             (handleSendMessage_begin_created now app content atts w Hsel)).
  rewrite handleSendMessage_settle_run.
  fold created newMessage.
  unfold App.contextMessages. rewrite Hnone.
  cbn [requests App.withLoading App.withSessions App.tick App.withCurrent].
  change ([] ++ [newMessage])%list with [newMessage].
  rewrite Hsend.
  eexists. split; [reflexivity |].
  cbn [live loadingTrace loadingState sessions currentSessionId requests ticks
       App.withLoading App.withSessions App.tick App.withRequests
       App.withCurrent].
  rewrite Hlive. cbn [map]. unfold App.appendMessage at 1. cbn [map].
  fold (App.appendMessage (Some (cs_id created))
          (App.botMessage o (now (S (S (S (S (ticks w))))))
                          (now (S (S (S (S (S (ticks w))))))))
          (map (App.addUserMessage (cs_id created) content atts newMessage)
               (sessions app))).
  rewrite Hkeep.
  unfold App.addUserMessage. cbn [cs_id created App.newSession App.withMessages].
  rewrite String.eqb_refl. cbn [JS.eqId cs_id App.withMessages].
  rewrite String.eqb_refl.
  split; [reflexivity |]. split; [reflexivity |]. now rewrite <- app_assoc.
Qed.

(** X15. The reply of a send whose session was deleted while the call was
    awaited is dropped: the second part of the send, run after
    [handleDeleteChat] for the target session, returns normally, leaves the
    session list as the deletion left it and ends [IDLE]. (The target of the
    apology is the [currentSessionId] of the closure, here the same session
    or none.) *)
Theorem reply_to_a_deleted_session_is_dropped app sid newMessage content atts w1 :
  (currentSessionId app = None \/ currentSessionId app = Some sid) ->
  let deleted := snd (App.handleDeleteChat (live w1) sid w1) in
  exists w2,
    App.handleSendMessage_settle now remote app sid newMessage content atts deleted
    = (Ok tt, w2)
    /\ sessions (live w2)
       = filter (fun s => negb (cs_id s =? sid)) (sessions (live w1))
    /\ loadingState (live w2) = IDLE.
Proof.
  intros Htarget. cbn zeta.
  rewrite handleSendMessage_settle_run.
  assert (Hdeleted : sessions (live (snd (App.handleDeleteChat (live w1) sid w1)))
                     = filter (fun s => negb (cs_id s =? sid)) (sessions (live w1))).
  { unfold App.handleDeleteChat. run.
    now destruct (JS.eqId sid (currentSessionId (live w1))). }
  destruct (sendMessageToGemini remote _ content atts _) as [[o | e] f];
    eexists; (split; [reflexivity |]);
    cbn [live loadingState sessions App.withLoading App.withSessions App.tick
         App.withRequests];
    rewrite Hdeleted; (split; [| reflexivity]).
  - apply appendMessage_after_delete.
  - destruct Htarget as [-> | ->];
      [apply appendMessage_none | apply appendMessage_after_delete].
Qed.

(** X16. The session selected when the reply arrives plays no part: the
    second part of a send gives the same session list and the same loading
    trace whatever session was selected in the meantime, and leaves that
    selection as it is. Reply and apology go by ids taken when the send
    began. *)
Theorem reply_ignores_the_later_selection app sid newMessage content atts w1 later :
  let kept := snd (App.handleSendMessage_settle now remote app sid newMessage
                     content atts w1) in
  let switched := snd (App.handleSendMessage_settle now remote app sid newMessage
                         content atts (App.withCurrent later w1)) in
  sessions (live switched) = sessions (live kept)
  /\ loadingTrace switched = loadingTrace kept
  /\ requests switched = requests kept
  /\ currentSessionId (live switched) = later.
Proof.
  cbn zeta. rewrite !handleSendMessage_settle_run.
  cbn [requests App.withCurrent].
  destruct (sendMessageToGemini remote _ content atts _) as [[o | e] f];
    repeat split.
Qed.

End Interleavings.

(** ** The edit flow, further *)

Lemma findIndex_none {A} (p : A -> bool) (l : list A) :
  (forall x, In x l -> p x = false) -> JS.findIndex p l = None.
Proof.
  induction l as [| a l IH]; intros H; [reflexivity |].
  cbn. rewrite (H a) by now left.
  rewrite IH; [reflexivity |]. intros x Hx. apply H. now right.
Qed.

Section EditExtras.

Import GeminiService.
Variable now : nat -> Z.
Variable remote : Remote.

(** X17. [handleEditMessage] does nothing at all when no session is
    current, when the current session is not in the list, or when no message
    of the current session has the given id: the world is left as it was (no
    truncation, no loading state, no clock reading, no request). *)
Theorem edit_of_a_missing_message_is_a_noop app messageId newContent w :
  (App.selected (currentSessionId app) = None
   \/ (exists sid,
        App.selected (currentSessionId app) = Some sid
        /\ find (fun s => cs_id s =? sid) (sessions app) = None)
   \/ (exists sid session,
        App.selected (currentSessionId app) = Some sid
        /\ find (fun s => cs_id s =? sid) (sessions app) = Some session
        /\ forall m, In m (cs_messages session) -> msg_id m <> messageId)) ->
  App.handleEditMessage now remote app messageId newContent w = (Ok tt, w).
Proof.
  unfold App.handleEditMessage, App.handleEditMessage_begin.
  intros [Hnone | [(sid & Hsel & Hfind) | (sid & session & Hsel & Hfind & Hids)]].
  - now rewrite Hnone.
  - now rewrite Hsel, Hfind.
  - rewrite Hsel, Hfind, findIndex_none; [reflexivity |].
    intros m Hm. apply String.eqb_neq. now apply Hids.
Qed.

(** X18. The edit flow transmits the edited message once: for an edit of
    the message at position [k] (the first with its id) with a text or
    attachments to send, the first request of the turn is made on the chat
    built from the messages before position [k] only, and carries the new
    text with the attachments of the edited message. *)
Theorem edit_sends_only_the_earlier_history app w sid session k m newContent :
  App.selected (currentSessionId app) = Some sid ->
  find (fun s => cs_id s =? sid) (sessions app) = Some session ->
  nth_error (cs_messages session) k = Some m ->
  (forall j m', (j < k)%nat -> nth_error (cs_messages session) j = Some m' ->
                msg_id m' <> msg_id m) ->
  let message := currentParts newContent (JS.orEmpty (msg_attachments m)) in
  message <> [] ->
  exists w2 later,
    App.handleEditMessage now remote app (msg_id m) newContent w = (Ok tt, w2)
    /\ requests w2
       = (requests w
          ++ SendMessage (chatFor (firstn k (cs_messages session))) message
             :: later)%list
    /\ (List.length later <= 2)%nat.
Proof.
  intros Hsel Hfind Hnth Hfirst message Hne.
  assert (Hindex : JS.findIndex (fun x => msg_id x =? msg_id m)
                                (cs_messages session) = Some k).
  { apply findIndex_first with (x := m); [exact Hnth | apply String.eqb_refl |].
    intros j y Hj Hy. apply String.eqb_neq. eauto. }
  unfold App.handleEditMessage.
  erewrite bind_ok by (unfold App.handleEditMessage_begin;
                       rewrite Hsel, Hfind, Hindex, Hnth; reflexivity).
  fold (App.handleError now app).
  pose proof (requests_log remote (firstn k (cs_messages session)) newContent
                (JS.orEmpty (msg_attachments m)) (enter (requests w)) Hne)
    as (later & Hlog & Hlen).
  destruct (sendMessageToGemini remote (firstn k (cs_messages session)) newContent
              (JS.orEmpty (msg_attachments m)) (enter (requests w)))
    as [[o | e] f] eqn:Hsend; cbn [snd] in Hlog.
  - erewrite try_catch_ok by (apply receiveReply_ok; exact Hsend).
    do 2 eexists. split; [reflexivity |]. split; [exact Hlog | exact Hlen].
  - erewrite try_catch_throw by (apply receiveReply_throw; exact Hsend).
    rewrite handleError_run.
    do 2 eexists. split; [reflexivity |]. split; [exact Hlog | exact Hlen].
Qed.

End EditExtras.

(** ** The session list, further *)

Section StoreExtras.

Variable now : nat -> Z.

(** X19. [handleRenameChat] changes titles only: the sessions keep their
    order, ids, messages and creation times, every session with the given id
    gets exactly the new title, the sessions with another id are the same,
    selection and loading state are not touched, and of two renames of the
    same id the last one wins. *)
Theorem rename_changes_titles_only id title title' w :
  let w1 := snd (App.handleRenameChat id title w) in
  map cs_id (sessions (live w1)) = map cs_id (sessions (live w))
  /\ map cs_messages (sessions (live w1)) = map cs_messages (sessions (live w))
  /\ map cs_createdAt (sessions (live w1)) = map cs_createdAt (sessions (live w))
  /\ (forall s, In s (sessions (live w1)) -> cs_id s = id -> cs_title s = title)
  /\ filter (fun s => negb (cs_id s =? id)) (sessions (live w1))
     = filter (fun s => negb (cs_id s =? id)) (sessions (live w))
  /\ currentSessionId (live w1) = currentSessionId (live w)
  /\ loadingState (live w1) = loadingState (live w)
  /\ snd (App.handleRenameChat id title' w1)
     = snd (App.handleRenameChat id title' w).
Proof.
  unfold App.handleRenameChat. run.
  set (l := sessions (live w)).
  split; [rewrite map_map; apply map_ext; intros s;
          now destruct (cs_id s =? id) |].
  split; [rewrite map_map; apply map_ext; intros s;
          now destruct (cs_id s =? id) |].
  split; [rewrite map_map; apply map_ext; intros s;
          now destruct (cs_id s =? id) |].
  split.
  { intros s Hs Hid. apply in_map_iff in Hs as (s0 & <- & _).
    destruct (cs_id s0 =? id) eqn:E; [reflexivity |].
    apply String.eqb_neq in E. contradiction. }
  split.
  { induction l as [| s l IH]; [reflexivity |].
    cbn [map filter]. destruct (cs_id s =? id) eqn:E;
      cbn [cs_id App.withMessages]; rewrite E; cbn [negb];
      [exact IH | now rewrite IH]. }
  split; [reflexivity |]. split; [reflexivity |].
  unfold App.withSessions. cbn. do 2 f_equal.
  rewrite map_map. apply map_ext. intros s.
  destruct (cs_id s =? id) eqn:E; cbn [cs_id App.withMessages]; now rewrite E.
Qed.

(** X20. Creating a session and deleting it again gives the session list
    back, when the id made from the clock was not in use; the selection does
    not come back: the current session is then the first of the list, or
    none when the list is empty. *)
Theorem create_then_delete_restores_the_list app w u :
  app_user app = Some u ->
  let created := App.newSession (now (ticks w)) (now (S (ticks w))) in
  (forall s, In s (sessions (live w)) -> cs_id s <> cs_id created) ->
  let w1 := snd (App.createNewChat now app w) in
  let w2 := snd (App.handleDeleteChat (live w1) (cs_id created) w1) in
  sessions (live w1) = created :: sessions (live w)
  /\ sessions (live w2) = sessions (live w)
  /\ currentSessionId (live w2) = option_map cs_id (hd_error (sessions (live w))).
Proof.
  intros Huser created Hfresh. cbn zeta.
  assert (Hcreate : App.createNewChat now app w
                    = (Ok tt, App.withCurrent (Some (cs_id created))
                                (App.withSessions (cons created)
                                   (App.tick (App.tick w)))))
    by (unfold App.createNewChat; now rewrite Huser).
  rewrite Hcreate. cbn [snd].
  assert (Hkeep : filter (fun s => negb (cs_id s =? cs_id created))
                         (created :: sessions (live w)) = sessions (live w)).
  { cbn [filter]. rewrite String.eqb_refl. cbn [negb].
    apply forallb_filter_id, forallb_forall. intros s Hs.
    apply negb_true_iff, String.eqb_neq. now apply Hfresh. }
  unfold App.handleDeleteChat.
  cbn [live sessions currentSessionId App.withCurrent App.withSessions App.tick
       JS.eqId].
  rewrite Hkeep, String.eqb_refl.
  split; [reflexivity |]. split; [reflexivity |].
  now destruct (sessions (live w)).
Qed.

End StoreExtras.

(** ** The chat window *)

Lemma filterFrom_skip {A} (index k : nat) (l : list A) :
  (index < k)%nat ->
  JS.filterFrom (fun _ i => negb (i =? index)%nat) k l = l.
Proof.
  revert k. induction l as [| x l IH]; intros k Hk; [reflexivity |].
  cbn. replace (k =? index)%nat with false by (symmetry; apply Nat.eqb_neq; lia).
  cbn. f_equal. apply IH. lia.
Qed.

Lemma filterFrom_remove {A} (index k : nat) (l : list A) :
  (k <= index)%nat ->
  JS.filterFrom (fun _ i => negb (i =? index)%nat) k l
  = (firstn (index - k) l ++ skipn (S (index - k)) l)%list.
Proof.
  revert k. induction l as [| x l IH]; intros k Hk.
  - now rewrite firstn_nil, skipn_nil.
  - cbn [JS.filterFrom]. destruct (Nat.eqb_spec k index) as [-> | Hne].
    + cbn [negb]. rewrite Nat.sub_diag. cbn [firstn skipn app].
      apply filterFrom_skip. lia.
    + cbn [negb]. rewrite (IH (S k)) by lia.
      replace (index - k)%nat with (S (index - S k)) by lia.
      reflexivity.
Qed.

Section ChatWindowExtras.

Variable now : nat -> Z.
Variable remote : Remote.

(** X21. [handleSend] ignores a blank input: with nothing but white space
    in the text box and no attachment, nothing is sent and nothing changes,
    the text box included. *)
Theorem blank_input_is_not_sent app input w :
  JS.trim input = "" ->
  ChatWindow.handleSend now remote app input [] w = (Ok (input, []), w).
Proof.
  intros Hblank. unfold ChatWindow.handleSend. now rewrite Hblank.
Qed.

(** X22. An accepted input is sent as it was typed: when the loading state
    is [IDLE] and there is a text that is not blank, or an attachment,
    [handleSend] runs [handleSendMessage] with the input untrimmed and the
    attachments, returns normally, and empties the text box and the
    attachment list. *)
Theorem accepted_input_is_sent_as_typed app input atts w :
  loadingState app = IDLE ->
  JS.trim input <> "" \/ atts <> [] ->
  ChatWindow.handleSend now remote app input atts w
  = (Ok ("", []), snd (App.handleSendMessage now remote app input atts w)).
Proof.
  intros Hidle Hsome. unfold ChatWindow.handleSend. rewrite Hidle.
  replace (negb (JS.truthy (JS.trim input)) && (List.length atts =? 0)%nat)
    with false.
  2:{ symmetry. apply andb_false_iff. destruct Hsome as [Htext | Hatts].
      - left. apply negb_false_iff. now apply truthy_true.
      - right. now apply length_nonzero. }
  cbn [LoadingState_eqb negb orb]. unfold ChatWindow.onSendMessage.
  unfold bind, try_catch, ret.
  now destruct (App.handleSendMessage now remote app input atts w) as [[[] | e] w2].
Qed.

End ChatWindowExtras.

Section ComposerExtras.

(** X23. [removeAttachment] takes out exactly the attachment at the given
    position and keeps the others in order; a position past the end changes
    nothing. *)
Theorem removeAttachment_removes_one index prev :
  ChatWindow.removeAttachment index prev
  = (firstn index prev ++ skipn (S index) prev)%list
  /\ ((index < List.length prev)%nat ->
      S (List.length (ChatWindow.removeAttachment index prev)) = List.length prev)
  /\ ((List.length prev <= index)%nat ->
      ChatWindow.removeAttachment index prev = prev).
Proof.
  assert (Heq : ChatWindow.removeAttachment index prev
                = (firstn index prev ++ skipn (S index) prev)%list).
  { unfold ChatWindow.removeAttachment, JS.filteri.
    rewrite filterFrom_remove by lia. now rewrite Nat.sub_0_r. }
  split; [exact Heq |]. rewrite Heq. split.
  - intros Hin. rewrite length_app, length_firstn, length_skipn. lia.
  - intros Hout. rewrite firstn_all2 by exact Hout.
    rewrite skipn_all2 by lia. apply app_nil_r.
Qed.

(** X24. [getSupportedMimeType] always returns one of the five recorder
    types: the first one, in the order of preference, that the browser
    supports, and "audio/webm" when the browser supports none of them. *)
Theorem getSupportedMimeType_prefers_the_first isTypeSupported :
  let chosen := ChatWindow.getSupportedMimeType isTypeSupported in
  (exists earlier later,
      ChatWindow.recorderTypes = (earlier ++ chosen :: later)%list
      /\ isTypeSupported chosen = true
      /\ forall t, In t earlier -> isTypeSupported t = false)
  \/ (chosen = "audio/webm"
      /\ forall t, In t ChatWindow.recorderTypes -> isTypeSupported t = false).
Proof.
  cbn zeta. unfold ChatWindow.getSupportedMimeType.
  destruct (find isTypeSupported ChatWindow.recorderTypes) as [chosen |] eqn:Hfind.
  - left. apply find_some in Hfind as Hsome. destruct Hsome as [Hin Hyes].
    revert Hfind. generalize ChatWindow.recorderTypes.
    induction l as [| t l IH]; [discriminate |].
    cbn [find]. destruct (isTypeSupported t) eqn:Et.
    + intros [= ->]. exists [], l.
      split; [reflexivity | split; [exact Et | intros t' []]].
    + intros Hfind. destruct (IH Hfind) as (earlier & later & -> & Hc & Hearlier).
      exists (t :: earlier), later. repeat split; auto.
      intros t' [<- | Ht']; auto.
  - right. split; [reflexivity |].
    intros t Ht. now apply (find_none _ _ Hfind).
Qed.

End ComposerExtras.

Lemma two_digits (secs : nat) :
  (secs < 60)%nat ->
  JS.padStart 2 "0" (JS.showZ (Z.of_nat secs))
  = String (ascii_of_nat (48 + secs / 10))
      (String (ascii_of_nat (48 + secs mod 10)) "").
Proof.
  intros H.
  do 60 (destruct secs as [| secs]; [reflexivity |]).
  lia.
Qed.

Lemma readFiles_acc readAsDataURL files newAttachments :
  ChatWindow.readFiles readAsDataURL files newAttachments
  = (newAttachments
     ++ flat_map (fun f => match readAsDataURL f with
                           | Some base64 => [ChatWindow.fileAttachment f base64]
                           | None => []
                           end) files)%list.
Proof.
  revert newAttachments. induction files as [| f files IH]; intros acc.
  - cbn. now rewrite app_nil_r.
  - cbn [ChatWindow.readFiles flat_map].
    destruct (readAsDataURL f) as [base64 |]; rewrite IH;
      [now rewrite <- app_assoc | reflexivity].
Qed.

Section RecorderExtras.

(** X25. [formatDuration] prints minutes, a colon and the seconds on
    exactly two digits: the minutes are the whole minutes in decimal, and the
    two digits are the tens and the units of the remaining seconds. *)
Theorem formatDuration_is_minutes_and_two_digits seconds :
  ChatWindow.formatDuration seconds
  = JS.showZ (Z.of_nat (seconds / 60)) ++ ":"
    ++ String (ascii_of_nat (48 + (seconds mod 60) / 10))
         (String (ascii_of_nat (48 + (seconds mod 60) mod 10)) "").
Proof.
  unfold ChatWindow.formatDuration. cbn zeta.
  rewrite two_digits; [reflexivity |].
  apply Nat.mod_upper_bound. discriminate.
Qed.

(** X26. [handleFileSelect] only adds to the attachments: the former ones
    stay in front, then comes one attachment for each file that could be
    read, in the order of the files, a file whose read failed being skipped;
    every added attachment has a MIME type that is not empty ("application/
    octet-stream" when the file has none) and the name of its file. Without a
    file list nothing changes. *)
Theorem handleFileSelect_adds_the_readable_files readAsDataURL files prev :
  exists added,
    ChatWindow.handleFileSelect readAsDataURL files prev = (prev ++ added)%list
    /\ added
       = flat_map (fun f => match readAsDataURL f with
                            | Some base64 => [ChatWindow.fileAttachment f base64]
                            | None => []
                            end) (JS.orEmpty files)
    /\ (List.length added <= List.length (JS.orEmpty files))%nat
    /\ Forall (fun a => att_mimeType a <> "" /\ att_name a <> None) added.
Proof.
  eexists. split; [| split; [reflexivity |]].
  - unfold ChatWindow.handleFileSelect. destruct files as [fs |]; cbn.
    + now rewrite readFiles_acc.
    + now rewrite app_nil_r.
  - generalize (JS.orEmpty files). intros fs. split.
    + induction fs as [| f fs IH]; [cbn; lia |].
      cbn [flat_map]. rewrite length_app. cbn [List.length].
      destruct (readAsDataURL f); cbn [List.length]; lia.
    + induction fs as [| f fs IH]; [constructor |].
      cbn [flat_map]. apply Forall_app. split; [| exact IH].
      destruct (readAsDataURL f) as [base64 |]; constructor; [| constructor].
      unfold ChatWindow.fileAttachment. cbn [att_mimeType att_name].
      split; [| discriminate].
      destruct (JS.truthy (ChatWindow.file_type f)) eqn:E; [| discriminate].
      now apply truthy_true.
Qed.

End RecorderExtras.

(** ** The sidebar *)

Lemma trimEnd_cons (c : ascii) (s : string) :
  JS.trimEnd (String c s)
  = match JS.trimEnd s with
    | EmptyString => if JS.isWhiteSpace c then EmptyString else String c EmptyString
    | t => String c t
    end.
Proof. reflexivity. Qed.

Lemma trimEnd_idempotent (s : string) : JS.trimEnd (JS.trimEnd s) = JS.trimEnd s.
Proof.
  induction s as [| c s IH]; [reflexivity |].
  rewrite trimEnd_cons. destruct (JS.trimEnd s) as [| d t] eqn:E.
  - destruct (JS.isWhiteSpace c) eqn:Ec; [reflexivity |].
    rewrite trimEnd_cons. cbn [JS.trimEnd]. now rewrite Ec.
  - rewrite trimEnd_cons, IH. reflexivity.
Qed.

Lemma trimStart_head (s : string) :
  JS.trimStart s = ""
  \/ exists c t, JS.trimStart s = String c t /\ JS.isWhiteSpace c = false.
Proof.
  induction s as [| c s IH]; [now left |].
  cbn [JS.trimStart]. destruct (JS.isWhiteSpace c) eqn:Ec; [exact IH |].
  right. now exists c, s.
Qed.

Lemma trimEnd_head (c : ascii) (t : string) :
  JS.isWhiteSpace c = false -> exists t', JS.trimEnd (String c t) = String c t'.
Proof.
  intros Hc. rewrite trimEnd_cons. destruct (JS.trimEnd t); [| eauto].
  rewrite Hc. eauto.
Qed.

Lemma trim_idempotent (s : string) : JS.trim (JS.trim s) = JS.trim s.
Proof.
  unfold JS.trim.
  destruct (trimStart_head s) as [-> | (c & t & -> & Hc)]; [reflexivity |].
  destruct (@trimEnd_head c t Hc) as (t' & Ht).
  rewrite Ht. cbn [JS.trimStart]. rewrite Hc, <- Ht.
  apply trimEnd_idempotent.
Qed.

Lemma sidebar_act_keeps (a : Sidebar.Action) (st : Sidebar.State) (w : World) :
  exists st' w',
    Sidebar.act a st w = (Ok st', w')
    /\ ((Sidebar.editingSessionId st = None \/ Sidebar.deleteConfirmId st = None) ->
        Sidebar.editingSessionId st' = None \/ Sidebar.deleteConfirmId st' = None).
Proof.
  destruct a as [session | value | sessionId | | sessionId
                 | app innerWidth sessionId | | innerWidth sessionId];
    cbn [Sidebar.act].
  - do 2 eexists. split; [reflexivity |]. intros _. now right.
  - do 2 eexists. split; [reflexivity |]. auto.
  - unfold Sidebar.saveRename.
    destruct (JS.truthy (JS.trim (Sidebar.editTitle st)));
      do 2 eexists; (split; [reflexivity |]); intros _; now left.
  - do 2 eexists. split; [reflexivity |]. intros _. now left.
  - do 2 eexists. split; [reflexivity |]. intros _. now left.
  - unfold Sidebar.confirmDelete, App.handleDeleteChat.
    destruct (JS.eqId sessionId (currentSessionId app));
      do 2 eexists; (split; [reflexivity |]); intros _; now right.
  - do 2 eexists. split; [reflexivity |]. intros _. now right.
  - do 2 eexists. split; [reflexivity |]. auto.
Qed.

Section SidebarExtras.

(** X27. The sidebar never shows a rename box and a delete confirmation
    together: after any sequence of its actions, started from its initial
    state, the session being renamed or the session whose deletion awaits
    confirmation is unset; and no action ever fails. *)
Theorem sidebar_renames_or_deletes_not_both actions w :
  exists st w',
    Sidebar.acts actions Sidebar.initial w = (Ok st, w')
    /\ (Sidebar.editingSessionId st = None \/ Sidebar.deleteConfirmId st = None).
Proof.
  assert (Hgen : forall l st0 w0,
            (Sidebar.editingSessionId st0 = None
             \/ Sidebar.deleteConfirmId st0 = None) ->
            exists st w',
              Sidebar.acts l st0 w0 = (Ok st, w')
              /\ (Sidebar.editingSessionId st = None
                  \/ Sidebar.deleteConfirmId st = None)).
  { induction l as [| a l IH]; intros st0 w0 Hinv.
    - now exists st0, w0.
    - destruct (sidebar_act_keeps a st0 w0) as (st1 & w1 & Hact & Hkeep).
      cbn [Sidebar.acts]. rewrite (bind_ok _ _ _ Hact).
      apply IH. now apply Hkeep. }
  apply Hgen. now left.
Qed.

(** X28. A rename saved in the sidebar never stores a blank or untrimmed
    title: a blank title changes nothing, and otherwise every session of the
    resulting list is one of the former sessions or a session with the given
    id whose title is the trimmed input, not empty and without white space
    around it. Saving always closes the rename box. *)
Theorem saveRename_stores_a_trimmed_title sessionId st w :
  let saved := Sidebar.saveRename sessionId st w in
  (exists st', fst saved = Ok st' /\ Sidebar.editingSessionId st' = None)
  /\ (JS.trim (Sidebar.editTitle st) = "" -> snd saved = w)
  /\ forall s, In s (sessions (live (snd saved))) ->
       In s (sessions (live w))
       \/ (cs_id s = sessionId
           /\ cs_title s = JS.trim (Sidebar.editTitle st)
           /\ cs_title s <> ""
           /\ JS.trim (cs_title s) = cs_title s).
Proof.
  cbn zeta. unfold Sidebar.saveRename.
  destruct (JS.truthy (JS.trim (Sidebar.editTitle st))) eqn:Ht.
  - apply truthy_true in Ht.
    split; [eexists; split; reflexivity |].
    split; [intros Hblank; contradiction |].
    unfold App.handleRenameChat. run.
    intros s Hs. apply in_map_iff in Hs as (s0 & <- & Hs0).
    destruct (cs_id s0 =? sessionId) eqn:E; [right | now left].
    apply String.eqb_eq in E. cbn [cs_id cs_title App.withMessages].
    repeat split; auto. apply trim_idempotent.
  - split; [eexists; split; reflexivity |].
    split; [reflexivity |]. intros s Hs. now left.
Qed.

End SidebarExtras.

(** ** The message bubble *)

Section BubbleExtras.

Variable now : nat -> Z.
Variable remote : Remote.

(** X29. Saving an edit in a message bubble, with [handleEditMessage] as
    its callback: a text that is blank or unchanged never reaches the
    controller, the world stays as it was; any other text is handed over
    untrimmed, under the id of the message, whatever the loading state is.
    Either way the bubble leaves its edit mode and nothing is thrown. *)
Theorem saved_edit_reaches_the_controller app message editValue w :
  let onEdit := Some (App.handleEditMessage now remote app) in
  (JS.trim editValue = "" \/ editValue = msg_content message ->
   MessageBubble.handleSave onEdit message editValue w = (Ok false, w))
  /\ (JS.trim editValue <> "" -> editValue <> msg_content message ->
      MessageBubble.handleSave onEdit message editValue w
      = (Ok false,
         snd (App.handleEditMessage now remote app (msg_id message) editValue w))).
Proof.
  cbn zeta. unfold MessageBubble.handleSave. split.
  - intros [Hblank | Hsame].
    + now rewrite Hblank.
    + rewrite Hsame, String.eqb_refl. now rewrite andb_false_r.
  - intros Htext Hchanged.
    replace (JS.truthy (JS.trim editValue)) with true
      by (symmetry; now apply truthy_true).
    replace (editValue =? msg_content message) with false
      by (symmetry; now apply String.eqb_neq).
    cbn [negb andb]. unfold bind, try_catch, ret.
    now destruct (App.handleEditMessage now remote app (msg_id message)
                    editValue w) as [[[] | e] w2].
Qed.

End BubbleExtras.

(** ** The further properties at concrete inputs *)

Section MoreWitnesses.

Import Examples MoreExamples.

Lemma attachment_is_sent_as_bare_payload_witness :
  GeminiService.inlinePart photo = InlineData "image/png" "iVBORw0KGgo=".
Proof.
  apply (@attachment_is_sent_as_bare_payload photo "image/png" "iVBORw0KGgo=");
    first [reflexivity | discriminate].
Defined.

Lemma generated_image_is_attached_witness :
  exists f',
    GeminiService.sendMessageToGemini
      (askingTool "generate_image" (Some oneImage)) [] "Draw a red kite" []
      (GeminiService.enter [])
    = (Ok {| GeminiService.text := GeminiService.imageConfirmation;
             GeminiService.attachments :=
               [GeminiService.generatedImage (Some jpeg)] |}, f')
    /\ List.length (GeminiService.calls f') = 3%nat.
Proof.
  destruct (@generated_image_is_attached
              (askingTool "generate_image" (Some oneImage)) [] "Draw a red kite" []
              (GeminiService.enter []) (toolReply "generate_image") _ [] _
              oneImage _ [] _
              ltac:(discriminate) eq_refl eq_refl eq_refl eq_refl eq_refl
              eq_refl eq_refl)
    as (f' & Hrun & _ & Hlog).
  exists f'. split; [exact Hrun |]. now rewrite Hlog.
Defined.

Lemma image_call_without_arguments_fails_witness :
  exists f',
    GeminiService.sendMessageToGemini askingBare [] "Draw a red kite" []
      (GeminiService.enter [])
    = (Throw FailedToGetResponse, f')
    /\ List.length (GeminiService.calls f') = 1%nat.
Proof.
  destruct (@image_call_without_arguments_fails askingBare [] "Draw a red kite" []
              (GeminiService.enter []) bareCall _ []
              ltac:(discriminate) eq_refl eq_refl eq_refl eq_refl)
    as (f' & Hrun & Hlog).
  exists f'. split; [exact Hrun |]. now rewrite Hlog.
Defined.

Lemma generated_image_round_trip_witness :
  GeminiService.historyTurn
    (App.botMessage
       {| GeminiService.text := "Here it is.";
          GeminiService.attachments :=
            [GeminiService.generatedImage (Some jpeg)] |} 30 31)
  = {| role := model;
       parts := [InlineData "image/jpeg" jpeg; TextPart "Here it is."] |}.
Proof.
  apply (@generated_image_round_trip jpeg "Here it is." 30 31);
    first [reflexivity | discriminate].
Defined.

Lemma successful_send_witness :
  exists w2 session',
    App.handleSendMessage clock (answering "Long.") chatting "And the tail?" []
                          (start chatting) = (Ok tt, w2)
    /\ loadingTrace w2 = [THINKING; IDLE]
    /\ find (fun s => cs_id s =? "chat_9") (sessions (live w2)) = Some session'
    /\ List.length (cs_messages session') = 6%nat.
Proof.
  destruct (@successful_send clock (answering "Long.") chatting "And the tail?" []
              (start chatting) "chat_9" kites _ _
              eq_refl eq_refl eq_refl eq_refl)
    as (w2 & session' & Hrun & Htrace & _ & Hfind & Hmessages & _).
  exists w2, session'. rewrite Hmessages. auto.
Defined.

Lemma failed_send_appends_one_apology_witness :
  exists w2 session',
    App.handleSendMessage clock rejecting chatting "And the tail?" []
                          (start chatting) = (Ok tt, w2)
    /\ loadingTrace w2 = [THINKING; ERROR; IDLE]
    /\ find (fun s => cs_id s =? "chat_9") (sessions (live w2)) = Some session'
    /\ option_map msg_content (nth_error (cs_messages session') 5)
       = Some App.apology.
Proof.
  destruct (@failed_send_appends_one_apology clock rejecting chatting
              "And the tail?" [] (start chatting) "chat_9" kites _ _
              eq_refl eq_refl eq_refl eq_refl)
    as (w2 & session' & Hrun & Htrace & _ & Hfind & Hmessages & _).
  exists w2, session'. rewrite Hmessages. auto.
Defined.

Lemma send_is_append_only_witness :
  nth_error
    (sessions (live (snd (App.handleSendMessage clock (answering "Long.")
                            chatting "And the tail?" [] (start chatting))))) 1
  = Some older.
Proof.
  destruct (@send_is_append_only clock (answering "Long.") chatting
              "And the tail?" [] (start chatting) 1 older eq_refl)
    as (s' & added & Hnth & _ & _ & _ & _ & Hsame).
  rewrite (Hsame "chat_9" eq_refl ltac:(discriminate)) in Hnth. exact Hnth.
Defined.

Lemma first_message_title_witness :
  App.newTitle older "hi" [] = "hi".
Proof.
  destruct (@first_message_title older "hi" [] eq_refl) as (_ & _ & Hshort & _).
  apply Hshort; [discriminate | cbn; lia].
Defined.

Lemma first_send_creates_the_session_witness :
  exists w2,
    App.handleSendMessage clock (answering "Hello.") fresh "hi" [] (start fresh)
    = (Ok tt, w2)
    /\ currentSessionId (live w2) = Some "chat_1700000000000"
    /\ List.length (sessions (live w2)) = 1%nat.
Proof.
  destruct (@first_send_creates_the_session clock (answering "Hello.") fresh
              "hi" [] (start fresh) _ _ eq_refl eq_refl
              (fun s (H : In s []) => match H with end) eq_refl)
    as (w2 & Hrun & Hsessions & Hcurrent & _).
  exists w2. rewrite Hsessions. auto.
Defined.

Lemma reply_to_a_deleted_session_is_dropped_witness :
  exists w2,
    App.handleSendMessage_settle clock (answering "Long.") chatting "chat_9"
      followUp "Which colour?" []
      (snd (App.handleDeleteChat chatting "chat_9" (start chatting)))
    = (Ok tt, w2)
    /\ sessions (live w2) = [older].
Proof.
  destruct (@reply_to_a_deleted_session_is_dropped clock (answering "Long.")
              chatting "chat_9" followUp "Which colour?" [] (start chatting)
              (or_intror eq_refl))
    as (w2 & Hrun & Hsessions & _).
  exists w2. split; [exact Hrun | exact Hsessions].
Defined.

Lemma edit_of_a_missing_message_is_a_noop_witness :
  App.handleEditMessage clock rejecting chatting "msg_99_u" "Hello?" (start chatting)
  = (Ok tt, start chatting).
Proof.
  apply (@edit_of_a_missing_message_is_a_noop clock rejecting chatting
           "msg_99_u" "Hello?" (start chatting)).
  right. right. exists "chat_9", kites.
  split; [reflexivity | split; [reflexivity |]].
  intros m [<- | [<- | [<- | [<- | []]]]]; discriminate.
Defined.

Lemma edit_sends_only_the_earlier_history_witness :
  exists w2 later,
    App.handleEditMessage clock (answering "Round.") chatting "msg_20_u"
                          "Which shape?" (start chatting) = (Ok tt, w2)
    /\ requests w2
       = SendMessage (GeminiService.chatFor [question; reply])
                     [TextPart "Which shape?"] :: later.
Proof.
  assert (Hfirst : forall j m', (j < 2)%nat ->
                     nth_error (cs_messages kites) j = Some m' ->
                     msg_id m' <> msg_id followUp).
  { intros [| [| j]] m' Hj Hm; cbn in Hm;
      [injection Hm as <-; discriminate
      | injection Hm as <-; discriminate
      | lia]. }
  destruct (@edit_sends_only_the_earlier_history clock (answering "Round.")
              chatting (start chatting) "chat_9" kites 2 followUp "Which shape?"
              eq_refl eq_refl eq_refl Hfirst ltac:(discriminate))
    as (w2 & later & Hrun & Hlog & _).
  exists w2, later. split; [exact Hrun | exact Hlog].
Defined.

Lemma create_then_delete_restores_the_list_witness :
  sessions (live (snd (App.handleDeleteChat
                         (live (snd (App.createNewChat clock chatting
                                       (start chatting))))
                         "chat_1700000000000"
                         (snd (App.createNewChat clock chatting (start chatting))))))
  = [kites; older].
Proof.
  assert (Hfresh : forall s, In s (sessions (live (start chatting))) ->
                     cs_id s <> "chat_1700000000000").
  { intros s [<- | [<- | []]]; discriminate. }
  destruct (@create_then_delete_restores_the_list clock chatting (start chatting)
              guest eq_refl Hfresh) as (_ & Hback & _).
  exact Hback.
Defined.

Lemma blank_input_is_not_sent_witness :
  ChatWindow.handleSend clock (answering "ok") chatting "   " [] (start chatting)
  = (Ok ("   ", []), start chatting).
Proof.
  apply (@blank_input_is_not_sent clock (answering "ok") chatting "   "
           (start chatting)).
  reflexivity.
Defined.

Lemma accepted_input_is_sent_as_typed_witness :
  ChatWindow.handleSend clock (answering "ok") chatting " hi " [] (start chatting)
  = (Ok ("", []),
     snd (App.handleSendMessage clock (answering "ok") chatting " hi " []
            (start chatting))).
Proof.
  apply (@accepted_input_is_sent_as_typed clock (answering "ok") chatting " hi "
           [] (start chatting)).
  - reflexivity.
  - left. discriminate.
Defined.

End MoreWitnesses.
